(** * bigOcalculator: the measurement-and-classification engine

    A shallow embedding of [src/calculator.js] (the version in
    [src/unnamed/part_000]: [runAnalysis], [calculateRMSE],
    [determineComplexity]) and of [src/utils/analysisRunner.js]
    ([runSingleAnalysis]).

    Numbers.  JavaScript numbers are modelled exactly: the classifier takes
    square roots and logarithms, so its numbers are Stdlib reals [R]; the
    benchmarker only adds, subtracts, multiplies, divides and rounds clock
    readings, so its numbers are rationals [Q], which keeps it executable.
    A sample produced by the benchmarker enters the classifier through
    [Q2R].  NaN and the infinities are not modelled.

    Exceptions.  A thrown exception is the [Err] outcome of [result]. *)

From Stdlib Require Import List String Ascii Bool ZArith Lia.
From Stdlib Require Import Reals Lra Psatz Permutation Sorted.
From Stdlib Require Import QArith Qround Qreals.
Import ListNotations.

Open Scope R_scope.

(** ** Outcomes *)

Inductive result (A : Type) : Type :=
| Ok : A -> result A
| Err : result A.
Arguments Ok {A} _.
Arguments Err {A}.

(** ** The library functions the classifier calls ([simple-statistics]) *)

Module SS.

Fixpoint sum (xs : list R) : R :=
  match xs with
  | [] => 0
  | x :: xs' => x + sum xs'
  end.

(** [ss.mean]: throws ["mean requires at least one data point"] on an
    empty array, otherwise [sum(x) / x.length]. *)
Definition mean (xs : list R) : result R :=
  match xs with
  | [] => Err
  | _ => Ok (sum xs / INR (List.length xs))
  end.

(** [ss.linearRegression]: returns [{m, b}]; a single point gives
    [m = 0, b = y]; otherwise the least-squares formulas. *)
Definition linearRegression (data : list (R * R)) : R * R :=
  match data with
  | [(_, y)] => (0, y)
  | _ =>
      let len := INR (List.length data) in
      let sumX := sum (map fst data) in
      let sumY := sum (map snd data) in
      let sumXX := sum (map (fun p => fst p * fst p) data) in
      let sumXY := sum (map (fun p => fst p * snd p) data) in
      let m := (len * sumXY - sumX * sumY) / (len * sumXX - sumX * sumX) in
      let b := sumY / len - (m * sumX) / len in
      (m, b)
  end.

(** [ss.linearRegressionLine({m, b})] is [x => b + m * x]. *)
Definition linearRegressionLine (mb : R * R) : R -> R :=
  fun x => snd mb + fst mb * x.

End SS.

(** ** JavaScript operators on numbers *)

(** [x || d] on a number: [d] when [x] is falsy ([0]). *)
Definition js_or (x d : R) : R := if Req_EM_T x 0 then d else x.

(** [Math.round x] is [floor (x + 0.5)]. *)
Definition js_round (x : R) : R := IZR (Int_part (x + / 2)).

(** [s.includes(pat)]. *)
Fixpoint includes (s pat : string) : bool :=
  String.prefix pat s ||
  match s with
  | EmptyString => false
  | String _ s' => includes s' pat
  end.

(** [Array.prototype.find]. *)
Fixpoint find_first {A} (p : A -> bool) (l : list A) : option A :=
  match l with
  | [] => None
  | x :: l' => if p x then Some x else find_first p l'
  end.

(** [arr.sort((a, b) => a.rmse - b.rmse)]: the engine's sort is stable,
    so it is the stable insertion sort on the key. *)
Section SortBy.
Context {A : Type} (key : A -> R).

Fixpoint insert_by (x : A) (l : list A) : list A :=
  match l with
  | [] => [x]
  | y :: l' => if Rlt_dec (key x) (key y) then x :: y :: l' else y :: insert_by x l'
  end.

Definition sort_by (l : list A) : list A :=
  fold_left (fun acc x => insert_by x acc) l [].

End SortBy.

(** ** [calculator.js]: the classifier *)

Record DataPoint := { n : Z; time : R }.

(** [{ type, rmse, complexity }] *)
Record Model := { mtype : string; rmse : R; complexity : Z }.

(** [{ type, rmse }], an entry of the returned [results]. *)
Record Fit := { ftype : string; frmse : R }.

Record Classification := {
  bestFit : string;
  confidence : R;
  results : list Fit
}.

(** [calculateRMSE(actual, predicted)]. *)
Definition calculateRMSE (actual predicted : list R) : R :=
  let sumSquaredErrors :=
    SS.sum (map (fun '(val, p) => (val - p) ^ 2) (combine actual predicted)) in
  sqrt (sumSquaredErrors / INR (List.length actual)).

(** [getRegressionRMSE(transformFn)], the helper inside
    [determineComplexity]. *)
Definition getRegressionRMSE (dataPoints : list DataPoint) (transformFn : R -> R) : R :=
  let timeValues := map time dataPoints in
  let data := map (fun d => (transformFn (IZR (n d)), time d)) dataPoints in
  let model := SS.linearRegression data in
  let line := SS.linearRegressionLine model in
  let predictions := map (fun d => line (transformFn (IZR (n d)))) dataPoints in
  calculateRMSE timeValues predictions.

Definition label_constant := "O(1) - Constant"%string.
Definition label_log := "O(log n) - Logarithmic"%string.
Definition label_linear := "O(n) - Linear"%string.
Definition label_nlogn := "O(n log n) - Linear-ithmic"%string.
Definition label_quadratic := "O(n^2) - Quadratic"%string.

Definition labels : list string :=
  [label_constant; label_log; label_linear; label_nlogn; label_quadratic].

(** [bestModel === other]: the five model objects carry distinct types. *)
Definition same_model (a b : Model) : bool := String.eqb (mtype a) (mtype b).

(** The models array, in the order the source writes it. *)
Definition models_of (dataPoints : list DataPoint) (meanTime : R) : list Model :=
  let timeValues := map time dataPoints in
  let constantPredictions := map (fun _ => meanTime) dataPoints in
  let constantRMSE := calculateRMSE timeValues constantPredictions in
  let linearRMSE := getRegressionRMSE dataPoints (fun x => x) in
  let quadraticRMSE := getRegressionRMSE dataPoints (fun x => x ^ 2) in
  let logRMSE := getRegressionRMSE dataPoints (fun x => ln x) in
  let nLogNRMSE := getRegressionRMSE dataPoints (fun x => x * ln x) in
  [ {| mtype := label_constant; rmse := constantRMSE; complexity := 1 |};
    {| mtype := label_log; rmse := logRMSE; complexity := 2 |};
    {| mtype := label_linear; rmse := linearRMSE; complexity := 3 |};
    {| mtype := label_nlogn; rmse := nLogNRMSE; complexity := 4 |};
    {| mtype := label_quadratic; rmse := quadraticRMSE; complexity := 5 |} ].

(** The constant and logarithmic entries of the models array. *)
Definition constant_model (dataPoints : list DataPoint) (meanTime : R) : Model :=
  {| mtype := label_constant;
     rmse := calculateRMSE (map time dataPoints) (map (fun _ => meanTime) dataPoints);
     complexity := 1 |}.

Definition log_model (dataPoints : list DataPoint) : Model :=
  {| mtype := label_log; rmse := getRegressionRMSE dataPoints (fun x => ln x);
     complexity := 2 |}.

(** The Occam loop [for (let i = 1; i < models.length; i++)] over the
    sorted models, from [bestModel = models[0]]. *)
Fixpoint occam_scan (bestModel : Model) (rest : list Model) : Model :=
  match rest with
  | [] => bestModel
  | candidate :: rest' =>
      let bestModel' :=
        if Z_lt_dec (complexity candidate) (complexity bestModel) then
          let diff := (rmse candidate - rmse bestModel) / js_or (rmse bestModel) (1 / 1000000000) in
          if Rlt_dec diff (15 / 100) then candidate else bestModel
        else bestModel in
      occam_scan bestModel' rest'
  end.

(** The ultra-fast branch: [o1Model], [logModel] and the choice between them
    ([undefined] when [find] fails, which makes [bestModel.type] throw). *)
Definition ultra_fast_choice (models : list Model) : option Model :=
  let o1Model := find_first (fun m => includes (mtype m) "O(1)") models in
  let logModel := find_first (fun m => includes (mtype m) "O(log n)") models in
  match logModel, o1Model with
  | Some l, Some o => if Rlt_dec (rmse l) (rmse o) then Some l else Some o
  | _, _ => o1Model
  end.

(** The standard-regime confidence, before [Math.round]. *)
Definition standard_confidence (models : list Model) (meanTime : R) (bestModel : Model) : R :=
  let signalMagnitude := if Rlt_dec 0 meanTime then meanTime else 1 in
  let normalizedError := rmse bestModel / signalMagnitude in
  let fitQuality := Rmax 0 (1 - normalizedError * 2) in
  let sortedByFit := sort_by rmse models in
  let secondBest :=
    match sortedByFit with
    | s0 :: s1 :: _ => if same_model s0 bestModel then Some s1 else Some s0
    | [s0] => if same_model s0 bestModel then None else Some s0
    | [] => None
    end in
  let separation :=
    match secondBest with
    | Some sb => Rmin 1 ((rmse sb - rmse bestModel) / js_or (rmse sb) 1)
    | None => 0
    end in
  (fitQuality * (7 / 10) + separation * (3 / 10)) * 100.

Definition to_fit (m : Model) : Fit := {| ftype := mtype m; frmse := rmse m |}.

(** [determineComplexity(dataPoints)]. *)
Definition determineComplexity (dataPoints : list DataPoint) : result Classification :=
  match SS.mean (map time dataPoints) with
  | Err => Err
  | Ok meanTime =>
      let models := sort_by rmse (models_of dataPoints meanTime) in
      match models with
      | [] => Err
      | models0 :: models_rest =>
          let isUltraFast := Rlt_dec meanTime (1 / 10000) in
          let choice :=
            if isUltraFast then
              match ultra_fast_choice models with
              | Some b => Some (b, 95)
              | None => None
              end
            else
              let bestModel := occam_scan models0 models_rest in
              Some (bestModel, standard_confidence models meanTime bestModel) in
          match choice with
          | None => Err
          | Some (bestModel, conf) =>
              let res := sort_by frmse (map to_fit models) in
              Ok {| bestFit := mtype bestModel;
                    confidence := js_round conf;
                    results := res |}
          end
      end
  end.

(** ** [calculator.js]: the benchmarker *)

Open Scope Q_scope.

(** The argument passed to the algorithm: [generateInputArray(n)], or [n]
    itself when [inputMode === 'number']. *)
Inductive Input := InArray (arr : list Z) | InNumber (k : Z).

(** [inputMode]: ['number'], or anything else (['array'] by default). *)
Inductive InputMode := ModeArray | ModeNumber.

(** [Array.from({ length: n }, (_, i) => i)]: the length goes through
    [ToLength] (a negative [n] gives the empty array) and then
    [new Array(len)], which throws a [RangeError] when [len] is not a valid
    array length, that is above [2^32 - 1]. *)
Definition max_array_length : Z := 4294967295.

Definition generateInputArray (k : Z) : result (list Z) :=
  if Z.ltb max_array_length k then Err
  else Ok (map Z.of_nat (seq 0 (Z.to_nat k))).

(** [inputMode === 'number' ? n : generateInputArray(n)] *)
Definition input_for (inputMode : InputMode) (k : Z) : result Input :=
  match inputMode with
  | ModeNumber => Ok (InNumber k)
  | ModeArray =>
      match generateInputArray k with
      | Ok arr => Ok (InArray arr)
      | Err => Err
      end
  end.

(** The sizes for which building the input does not throw. *)
Definition input_buildable (inputMode : InputMode) (k : Z) : Prop :=
  match inputMode with
  | ModeNumber => True
  | ModeArray => (k <= max_array_length)%Z
  end.

(** [{ n, time }] as [runAnalysis] pushes it. *)
Record Sample := { s_n : Z; s_time : Q }.

Definition Qsum (xs : list Q) : Q := fold_right Qplus 0 xs.

(** [ss.mean] on the measured times. *)
Definition Qmean (xs : list Q) : result Q :=
  match xs with
  | [] => Err
  | _ => Ok (Qsum xs / inject_Z (Z.of_nat (List.length xs)))
  end.

(** [a < b] on numbers. *)
Definition Qltb (a b : Q) : bool := negb (Qle_bool b a).

(** The batch size after calibration (the [if (calCount > 1)] block). *)
Definition batch_size (calCount : Z) (calDuration : Q) : Z :=
  if Z.ltb 1 calCount then
    Qceiling ((15 * inject_Z calCount) /
              (if Qeq_bool calDuration 0 then 1 # 1000 else calDuration))
  else 1%Z.

(** The state the benchmarker threads: how many clock readings have been
    taken, and the invocations of the algorithm so far (latest first). *)
Record St := { reads : nat; calls : list Input }.

Definition M (A : Type) : Type := St -> result A * St.

Definition ret {A} (a : A) : M A := fun s => (Ok a, s).

Definition bind {A B} (m : M A) (k : A -> M B) : M B :=
  fun s => match m s with
           | (Ok a, s') => k a s'
           | (Err, s') => (Err, s')
           end.

Definition lift {A} (r : result A) : M A := fun s => (r, s).

Notation "x <- m ;; k" := (bind m (fun x => k)) (at level 61, m at next level, right associativity).
Notation "m ;;; k" := (bind m (fun _ => k)) (at level 61, right associativity).

Fixpoint mapM {A B} (f : A -> M B) (l : list A) : M (list B) :=
  match l with
  | [] => ret []
  | x :: l' => y <- f x ;; ys <- mapM f l' ;; ret (y :: ys)
  end.

Section Benchmarker.

(** The clock: [now_at k] is what the [k]-th call of [performance.now()]
    returns. *)
Variable now_at : nat -> Q.

(** The algorithm under test: its [k]-th invocation, on input [x], throws
    when [raises_at k x] (its return value is discarded). *)
Variable raises_at : nat -> Input -> bool.

(** [performance.now()] *)
Definition now : M Q :=
  fun s => (Ok (now_at (reads s)), {| reads := S (reads s); calls := calls s |}).

(** [algorithm(x)] *)
Definition call_alg (x : Input) : M unit :=
  fun s =>
    let s' := {| reads := reads s; calls := x :: calls s |} in
    if raises_at (List.length (calls s)) x then (Err, s') else (Ok tt, s').

(** [for (...; i < k; ...) algorithm(x)] *)
Fixpoint repeat_call (k : nat) (x : Input) : M unit :=
  match k with
  | O => ret tt
  | S k' => call_alg x ;;; repeat_call k' x
  end.

(** The calibration loop
    [while ((calEnd - calStart) < 5 && calCount < 1000000)]; [fuel] is a
    structural bound, the source's guard decides when the loop stops. *)
Fixpoint cal_loop (fuel : nat) (x : Input) (calStart calEnd : Q) (calCount : Z)
  : M (Q * Z) :=
  match fuel with
  | O => ret (calEnd, calCount)
  | S fuel' =>
      if Qltb (calEnd - calStart) 5 && Z.ltb calCount 1000000 then
        call_alg x ;;;
        calEnd' <- now ;;
        cal_loop fuel' x calStart calEnd' (calCount + 1)
      else ret (calEnd, calCount)
  end.

Definition cal_fuel : nat := Z.to_nat 1000000.

(** The measurement loop [for (let i = 0; i < iterations; i++)]: the times
    in the order they are pushed. *)
Fixpoint measure (iterations : nat) (inputMode : InputMode) (k : Z) (batchSize : Z)
  : M (list Q) :=
  match iterations with
  | O => ret []
  | S it' =>
      inputForAlgorithm <- lift (input_for inputMode k) ;;
      start <- now ;;
      repeat_call (Z.to_nat batchSize) inputForAlgorithm ;;;
      end_ <- now ;;
      rest <- measure it' inputMode k batchSize ;;
      ret ((end_ - start) / inject_Z batchSize :: rest)
  end.

(** The body of [for (const n of inputSizes)]. *)
Definition measure_size (iterations : nat) (inputMode : InputMode) (k : Z) : M Sample :=
  calibrationInput <- lift (input_for inputMode k) ;;
  calStart <- now ;;
  cal <- cal_loop cal_fuel calibrationInput calStart calStart 0 ;;
  let calDuration := fst cal - calStart in
  let batchSize := batch_size (snd cal) calDuration in
  times <- measure iterations inputMode k batchSize ;;
  avgTime <- lift (Qmean times) ;;
  ret {| s_n := k; s_time := avgTime |}.

(** The warmup phase. *)
Definition warmup (inputMode : InputMode) (inputSizes : list Z) : M unit :=
  match inputSizes with
  | [] => ret tt
  | warmupSize :: _ =>
      warmupInput <- lift (input_for inputMode warmupSize) ;;
      repeat_call 100 warmupInput
  end.

(** [runAnalysis(algorithm, inputSizes, iterations, inputMode)]. *)
Definition runAnalysis (inputSizes : list Z) (iterations : nat) (inputMode : InputMode)
  : M (list Sample) :=
  warmup inputMode inputSizes ;;;
  mapM (measure_size iterations inputMode) inputSizes.

Definition to_datapoint (s : Sample) : DataPoint :=
  {| n := s_n s; time := Q2R (s_time s) |}.

(** The early return of [runSingleAnalysis]. *)
Definition degenerate : Classification :=
  {| bestFit := "N/A"; confidence := 0%R; results := [] |}.

(** [runSingleAnalysis(algorithm, inputSizes, iterations, inputMode)]. *)
Definition runSingleAnalysis (inputSizes : list Z) (iterations : nat) (inputMode : InputMode)
  : M Classification :=
  if Nat.ltb (List.length inputSizes) 2 then ret degenerate
  else
    dataPoints <- runAnalysis inputSizes iterations inputMode ;;
    lift (determineComplexity (map to_datapoint dataPoints)).

End Benchmarker.

(** [m] only ever invokes the algorithm on inputs satisfying [P]: the
    invocations it adds to the log, whatever its outcome. *)
Definition logs_only (P : Input -> Prop) {A} (m : M A) : Prop :=
  forall s r s', m s = (r, s') -> exists new, calls s' = new ++ calls s /\ Forall P new.

(** The last invocation in the log is one that threw. *)
Definition last_call_raised (raises_at : nat -> Input -> bool) (s : St) : Prop :=
  exists x rest, calls s = x :: rest /\ raises_at (List.length rest) x = true.

(** Whenever [m] ends in [Err], its final state satisfies [Q]. *)
Definition errs_only (Q : St -> Prop) {A} (m : M A) : Prop :=
  forall s s', m s = (Err, s') -> Q s'.

Open Scope R_scope.

(** ** Readings of the spec, to compare with the code *)

(** The tie-break as the spec words it: from the provisional best (the
    lowest-RMSE model), visit the models in ascending rank order and promote
    a simpler candidate when [(candidate.rmse - best.rmse) / best.rmse < 0.15]. *)
Fixpoint spec_rank_order_scan (best : Model) (in_rank_order : list Model) : Model :=
  match in_rank_order with
  | [] => best
  | c :: rest =>
      let best' :=
        if Z_lt_dec (complexity c) (complexity best) then
          if Rlt_dec ((rmse c - rmse best) / rmse best) (15 / 100) then c else best
        else best in
      spec_rank_order_scan best' rest
  end.

Definition spec_rank_order_best (dataPoints : list DataPoint) (meanTime : R) : option Model :=
  match sort_by rmse (models_of dataPoints meanTime) with
  | [] => None
  | provisional :: _ => Some (spec_rank_order_scan provisional (models_of dataPoints meanTime))
  end.

(** The two ways the spec allows to reject a negative time before the
    regressions: drop the sample ([InsufficientData] when fewer than two
    remain), or clamp it to [0]. *)
Definition valid_time (d : DataPoint) : bool := if Rle_dec 0 (time d) then true else false.

Definition spec_drop_invalid (dataPoints : list DataPoint) : result Classification :=
  let kept := filter valid_time dataPoints in
  if Nat.ltb (List.length kept) 2 then Ok degenerate else determineComplexity kept.

Definition clamp_time (d : DataPoint) : DataPoint := {| n := n d; time := Rmax 0 (time d) |}.

Definition spec_clamp_invalid (dataPoints : list DataPoint) : result Classification :=
  determineComplexity (map clamp_time dataPoints).

(** The batch size as the spec words it:
    [ceil(15 * calCount / calDuration)] with a floor of 1. *)
Definition spec_batch_size (calCount : Z) (calDuration : Q) : Z :=
  Z.max 1 (Qceiling ((15 * inject_Z calCount) / calDuration)%Q).

(** A clock that advances 6 time units per reading. *)
Definition clock_step6 (k : nat) : Q := (inject_Z (Z.of_nat k) * 6)%Q.

(** An algorithm that never throws. *)
Definition never_raises (k : nat) (x : Input) : bool := false.

(** An algorithm whose first invocation throws. *)
Definition raises_first (k : nat) (x : Input) : bool := Nat.eqb k 0.

(** The [results] entries with the catalog's labels and the given RMSEs. *)
Definition fits_with (rs : list R) : list Fit :=
  map (fun '(s, e) => {| ftype := s; frmse := e |}) (combine labels rs).

(** One step of the tie-break: [c] replaces the current best [b]. *)
Definition promotes (b c : Model) : Prop :=
  (complexity c < complexity b)%Z /\
  (rmse c - rmse b) / js_or (rmse b) (1 / 1000000000) < 15 / 100.

(** [promotion_path a l b]: from the current best [a], visiting [l] in order,
    every candidate that qualifies replaces the current best and every other
    candidate is passed over, and the best at the end is [b]. *)
Inductive promotion_path : Model -> list Model -> Model -> Prop :=
| path_nil (a : Model) : promotion_path a [] a
| path_skip (a c : Model) (l : list Model) (b : Model) :
    ~ promotes a c -> promotion_path a l b -> promotion_path a (c :: l) b
| path_promote (a c : Model) (l : list Model) (b : Model) :
    promotes a c -> promotion_path c l b -> promotion_path a (c :: l) b.

(** Sizes the classifier handles without NaN: at least two samples, all
    sizes positive ([Math.log] is finite) and pairwise distinct (the
    regression denominators are non-zero). *)
Definition valid_sizes (dataPoints : list DataPoint) : Prop :=
  (2 <= List.length dataPoints)%nat /\ Forall (fun d => (0 < n d)%Z) dataPoints /\
  NoDup (map n dataPoints).

(** ** Concrete sample sequences *)

Definition mk (k : Z) (t : R) : DataPoint := {| n := k; time := t |}.

(** One sample. *)
Definition samples_one : list DataPoint := [mk 1 1].

(** Two samples, one of them with a negative time. *)
Definition samples_negative : list DataPoint := [mk 1 (-1); mk 2 1].

(** Two valid samples. *)
Definition samples_two : list DataPoint := [mk 1 1; mk 2 3].

(** Three valid samples, sizes [1, 2, 4], times [14, 0, 19]. *)
Definition samples_three : list DataPoint := [mk 1 14; mk 2 0; mk 4 19].

(** * Properties *)

(** ** The stable sort *)

Section SortFacts.
Context {A : Type} (key : A -> R).

Lemma insert_by_perm (x : A) (l : list A) : Permutation (insert_by key x l) (x :: l).
Proof.
  induction l as [|y l IH]; simpl; [auto|].
  destruct (Rlt_dec (key x) (key y)); [auto|].
  rewrite IH. apply perm_swap.
Qed.

Lemma sort_by_perm_acc (l acc : list A) :
  Permutation (fold_left (fun acc x => insert_by key x acc) l acc) (l ++ acc).
Proof.
  revert acc; induction l as [|x l IH]; intros acc; simpl; [auto|].
  rewrite IH, insert_by_perm. symmetry. apply Permutation_middle.
Qed.

Lemma sort_by_perm (l : list A) : Permutation (sort_by key l) l.
Proof.
  unfold sort_by. rewrite sort_by_perm_acc, app_nil_r. auto.
Qed.

Lemma insert_by_sorted (x : A) (l : list A) :
  Sorted (fun a b => key a <= key b) l ->
  Sorted (fun a b => key a <= key b) (insert_by key x l).
Proof.
  induction l as [|y l IH]; intros Hs; simpl; [auto|].
  destruct (Rlt_dec (key x) (key y)) as [Hlt|Hge].
  - constructor; [exact Hs|constructor; lra].
  - apply Sorted_inv in Hs as [Hs Hhd].
    constructor; [apply IH, Hs|].
    destruct l as [|z l]; simpl.
    + constructor; lra.
    + inversion Hhd; subst.
      destruct (Rlt_dec (key x) (key z)); constructor; lra.
Qed.

Lemma sort_by_sorted (l : list A) : Sorted (fun a b => key a <= key b) (sort_by key l).
Proof.
  unfold sort_by.
  assert (Hgen : forall acc, Sorted (fun a b => key a <= key b) acc ->
            Sorted (fun a b => key a <= key b)
              (fold_left (fun acc x => insert_by key x acc) l acc)).
  { induction l as [|x l IH]; intros acc Hacc; simpl; [exact Hacc|].
    apply IH, insert_by_sorted, Hacc. }
  apply Hgen. constructor.
Qed.

Lemma sort_by_length (l : list A) : List.length (sort_by key l) = List.length l.
Proof. apply Permutation_length, sort_by_perm. Qed.

(** The head of a stable sort: a minimum, and among the minima the one
    that comes first in the input.  [rank] numbers the input in increasing
    order. *)
Variable rank : A -> Z.

Definition head_min_rank (l : list A) : Prop :=
  match l with
  | [] => True
  | h :: _ => forall y, In y l -> key h <= key y /\ (key y = key h -> (rank h <= rank y)%Z)
  end.

Lemma insert_by_head_min_rank (x : A) (l : list A) :
  head_min_rank l -> (forall y, In y l -> (rank y < rank x)%Z) ->
  head_min_rank (insert_by key x l).
Proof.
  destruct l as [|h t]; simpl; intros Hh Hr.
  - intros y [<-|[]]. split; [lra|lia].
  - destruct (Rlt_dec (key x) (key h)) as [Hlt|Hge].
    + intros y Hy. destruct Hy as [Hxy|Hy]; [subst y; split; [lra|lia]|].
      destruct (Hh y Hy) as [Hle _]. split; [lra|intros; lra].
    + intros y [<-|Hy].
      * apply Hh; left; reflexivity.
      * apply (Permutation_in _ (insert_by_perm x t)) in Hy.
        destruct Hy as [<-|Hy].
        -- split; [lra|]. intros _. assert (rank h < rank x)%Z by (apply Hr; left; reflexivity). lia.
        -- apply Hh; right; exact Hy.
Qed.

Lemma sort_by_head_min_rank (l : list A) :
  StronglySorted (fun a b => (rank a < rank b)%Z) l ->
  head_min_rank (sort_by key l).
Proof.
  unfold sort_by.
  assert (Hgen : forall l acc,
            StronglySorted (fun a b => (rank a < rank b)%Z) l ->
            (forall y x, In y acc -> In x l -> (rank y < rank x)%Z) ->
            head_min_rank acc ->
            head_min_rank (fold_left (fun acc x => insert_by key x acc) l acc)).
  { clear l. induction l as [|x l IH]; intros acc Hs Hacc Hh; simpl; [exact Hh|].
    apply StronglySorted_inv in Hs as [Hs Hx].
    apply IH; [exact Hs| |].
    - intros y z Hy Hz.
      apply (Permutation_in _ (insert_by_perm x acc)) in Hy.
      destruct Hy as [<-|Hy].
      + rewrite Forall_forall in Hx. apply Hx, Hz.
      + apply Hacc; [exact Hy|right; exact Hz].
    - apply insert_by_head_min_rank; [exact Hh|].
      intros y Hy. apply Hacc; [exact Hy|left; reflexivity]. }
  intros Hs. apply Hgen; [exact Hs|intros y x []|exact I].
Qed.

End SortFacts.

(** ** [find] and the Occam scan *)

Lemma find_first_unique {A} (p : A -> bool) (l : list A) (x : A) :
  In x l -> p x = true -> (forall y, In y l -> p y = true -> y = x) ->
  find_first p l = Some x.
Proof.
  induction l as [|y l IH]; simpl; [intros []|].
  intros Hin Hpx Hu.
  destruct (p y) eqn:Hpy.
  - f_equal. apply Hu; [left; reflexivity|exact Hpy].
  - destruct Hin as [<-|Hin]; [congruence|].
    apply IH; [exact Hin|exact Hpx|].
    intros z Hz Hpz. apply Hu; [right; exact Hz|exact Hpz].
Qed.

Lemma occam_scan_in (b : Model) (rest : list Model) :
  In (occam_scan b rest) (b :: rest).
Proof.
  revert b; induction rest as [|c rest IH]; intros b; simpl; [auto|].
  destruct (Z_lt_dec (complexity c) (complexity b));
    [destruct (Rlt_dec _ (15 / 100))|].
  - specialize (IH c). simpl in IH. tauto.
  - specialize (IH b). simpl in IH. tauto.
  - specialize (IH b). simpl in IH. tauto.
Qed.

Lemma occam_scan_complexity (b : Model) (rest : list Model) :
  (complexity (occam_scan b rest) <= complexity b)%Z.
Proof.
  revert b; induction rest as [|c rest IH]; intros b; simpl; [lia|].
  destruct (Z_lt_dec (complexity c) (complexity b)) as [Hlt|];
    [destruct (Rlt_dec _ (15 / 100))|].
  - specialize (IH c). lia.
  - apply IH.
  - apply IH.
Qed.

(** ** Rounding *)

Lemma Int_part_eq (x : R) (z : Z) : IZR z <= x < IZR z + 1 -> Int_part x = z.
Proof.
  intros [H1 H2]. unfold Int_part.
  assert (Hup : (z + 1)%Z = up x).
  { apply tech_up; rewrite plus_IZR; simpl; lra. }
  rewrite <- Hup. lia.
Qed.

Lemma js_round_eq (x : R) (z : Z) : IZR z - / 2 <= x < IZR z + / 2 -> js_round x = IZR z.
Proof.
  intros H. unfold js_round. f_equal. apply Int_part_eq. lra.
Qed.

(** ** The catalog inside [determineComplexity] *)

Section Catalog.
Variables (dataPoints : list DataPoint) (meanTime : R).

Lemma in_models_of (m : Model) :
  In m (models_of dataPoints meanTime) ->
  m = (constant_model dataPoints meanTime) \/ m = (log_model dataPoints) \/ mtype m = label_linear \/
  mtype m = label_nlogn \/ mtype m = label_quadratic.
Proof.
  simpl. intros [<-|[<-|[<-|[<-|[<-|[]]]]]]; auto 6.
Qed.

Lemma models_of_labels : map mtype (models_of dataPoints meanTime) = labels.
Proof. reflexivity. Qed.

Lemma models_of_rank_sorted :
  StronglySorted (fun a b => (complexity a < complexity b)%Z) (models_of dataPoints meanTime).
Proof.
  repeat constructor; simpl; repeat constructor; simpl; lia.
Qed.

Lemma sorted_models_perm :
  Permutation (sort_by rmse (models_of dataPoints meanTime)) (models_of dataPoints meanTime).
Proof. apply sort_by_perm. Qed.

Lemma find_o1 :
  find_first (fun m => includes (mtype m) "O(1)") (sort_by rmse (models_of dataPoints meanTime))
  = Some (constant_model dataPoints meanTime).
Proof.
  apply find_first_unique.
  - apply (Permutation_in _ (Permutation_sym sorted_models_perm)). left; reflexivity.
  - reflexivity.
  - intros y Hy Hp. apply (Permutation_in _ sorted_models_perm) in Hy.
    simpl in Hy. destruct Hy as [<-|[<-|[<-|[<-|[<-|[]]]]]];
      simpl in Hp; try discriminate; reflexivity.
Qed.

Lemma find_log :
  find_first (fun m => includes (mtype m) "O(log n)") (sort_by rmse (models_of dataPoints meanTime))
  = Some (log_model dataPoints).
Proof.
  apply find_first_unique.
  - apply (Permutation_in _ (Permutation_sym sorted_models_perm)). right; left; reflexivity.
  - reflexivity.
  - intros y Hy Hp. apply (Permutation_in _ sorted_models_perm) in Hy.
    simpl in Hy. destruct Hy as [<-|[<-|[<-|[<-|[<-|[]]]]]];
      simpl in Hp; try discriminate; reflexivity.
Qed.

Lemma ultra_fast_choice_eq :
  ultra_fast_choice (sort_by rmse (models_of dataPoints meanTime)) =
  Some (if Rlt_dec (rmse (log_model dataPoints)) (rmse (constant_model dataPoints meanTime)) then (log_model dataPoints) else (constant_model dataPoints meanTime)).
Proof.
  unfold ultra_fast_choice. rewrite find_o1, find_log.
  destruct (Rlt_dec _ _); reflexivity.
Qed.

End Catalog.

Lemma sorted_models_cons (dataPoints : list DataPoint) (meanTime : R) :
  exists m0 rest, sort_by rmse (models_of dataPoints meanTime) = m0 :: rest.
Proof.
  destruct (sort_by rmse (models_of dataPoints meanTime)) as [|m0 rest] eqn:E.
  - pose proof (sort_by_length rmse (models_of dataPoints meanTime)) as Hl.
    rewrite E in Hl. discriminate.
  - eauto.
Qed.

(** [determineComplexity] once the mean is known: the two regimes. *)
Lemma determineComplexity_unfold (dataPoints : list DataPoint) (meanTime : R)
      (m0 : Model) (rest : list Model) :
  SS.mean (map time dataPoints) = Ok meanTime ->
  sort_by rmse (models_of dataPoints meanTime) = m0 :: rest ->
  determineComplexity dataPoints =
  let models := m0 :: rest in
  let res := sort_by frmse (map to_fit models) in
  if Rlt_dec meanTime (1 / 10000) then
    let b := if Rlt_dec (rmse (log_model dataPoints)) (rmse (constant_model dataPoints meanTime))
             then log_model dataPoints else constant_model dataPoints meanTime in
    Ok {| bestFit := mtype b; confidence := js_round 95; results := res |}
  else
    let b := occam_scan m0 rest in
    Ok {| bestFit := mtype b; confidence := js_round (standard_confidence models meanTime b);
          results := res |}.
Proof.
  intros Hm Hs. unfold determineComplexity. rewrite Hm, Hs.
  destruct (Rlt_dec meanTime (1 / 10000)); [|reflexivity].
  rewrite <- Hs, ultra_fast_choice_eq. reflexivity.
Qed.

Lemma mean_ok (dataPoints : list DataPoint) :
  dataPoints <> [] -> exists meanTime, SS.mean (map time dataPoints) = Ok meanTime.
Proof.
  destruct dataPoints as [|d ds]; [congruence|]. intros _. simpl. eauto.
Qed.

Lemma determineComplexity_cases (dataPoints : list DataPoint) :
  dataPoints <> [] ->
  exists meanTime m0 rest,
    SS.mean (map time dataPoints) = Ok meanTime /\
    sort_by rmse (models_of dataPoints meanTime) = m0 :: rest.
Proof.
  intros Hne. destruct (mean_ok _ Hne) as [mt Hm].
  destruct (sorted_models_cons dataPoints mt) as (m0 & rest & Hs). eauto.
Qed.

Lemma results_facts (dataPoints : list DataPoint) (meanTime : R) (m0 : Model) (rest : list Model) :
  sort_by rmse (models_of dataPoints meanTime) = m0 :: rest ->
  let res := sort_by frmse (map to_fit (m0 :: rest)) in
  List.length res = 5%nat /\ Sorted (fun a b => frmse a <= frmse b) res /\
  Permutation (map ftype res) labels.
Proof.
  intros Hs res. subst res. rewrite <- Hs. repeat split.
  - rewrite sort_by_length, length_map, sort_by_length. reflexivity.
  - apply sort_by_sorted.
  - rewrite <- (models_of_labels dataPoints meanTime).
    rewrite (Permutation_map ftype (sort_by_perm frmse _)), map_map.
    apply (Permutation_map mtype (sort_by_perm rmse _)).
Qed.

Lemma determineComplexity_best_in (dataPoints : list DataPoint) :
  dataPoints <> [] ->
  exists meanTime r, SS.mean (map time dataPoints) = Ok meanTime /\
    determineComplexity dataPoints = Ok r /\
    exists b, In b (models_of dataPoints meanTime) /\ mtype b = bestFit r.
Proof.
  intros Hne. destruct (determineComplexity_cases _ Hne) as (mt & m0 & rest & Hm & Hs).
  exists mt. rewrite (determineComplexity_unfold _ _ _ _ Hm Hs). cbv zeta.
  destruct (Rlt_dec mt (1 / 10000)).
  - eexists; split; [exact Hm|split; [reflexivity|]].
    destruct (Rlt_dec _ _); eexists; (split; [|reflexivity]); simpl; auto.
  - eexists; split; [exact Hm|split; [reflexivity|]].
    exists (occam_scan m0 rest). split; [|reflexivity].
    apply (Permutation_in _ (sort_by_perm rmse _)). rewrite Hs. apply occam_scan_in.
Qed.

(** C3: when the mean measured time is below [1e-4], the best fit is the
    logarithmic model if its RMSE is strictly below the constant model's,
    and the constant model otherwise; the confidence is exactly 95. *)
Theorem ultra_fast_override (dataPoints : list DataPoint) (meanTime : R) :
  SS.mean (map time dataPoints) = Ok meanTime ->
  meanTime < 1 / 10000 ->
  exists r, determineComplexity dataPoints = Ok r /\
    bestFit r = (if Rlt_dec (rmse (log_model dataPoints))
                            (rmse (constant_model dataPoints meanTime))
                 then label_log else label_constant) /\
    confidence r = 95.
Proof.
  intros Hm Hlt.
  destruct (sorted_models_cons dataPoints meanTime) as (m0 & rest & Hs).
  rewrite (determineComplexity_unfold _ _ _ _ Hm Hs). cbv zeta.
  destruct (Rlt_dec meanTime (1 / 10000)); [|lra].
  eexists; split; [reflexivity|simpl; split].
  - destruct (Rlt_dec _ _); reflexivity.
  - apply js_round_eq. lra.
Qed.

(** C5: for every non-empty sample sequence (in particular every one with at
    least two samples) the classification succeeds and its [results] has
    exactly five entries, one per model of the catalog, sorted by
    non-decreasing RMSE. *)
Theorem results_five_sorted (dataPoints : list DataPoint) :
  (2 <= List.length dataPoints)%nat ->
  exists r, determineComplexity dataPoints = Ok r /\
    List.length (results r) = 5%nat /\
    Sorted (fun a b => frmse a <= frmse b) (results r) /\
    Permutation (map ftype (results r)) labels.
Proof.
  intros Hlen.
  assert (Hne : dataPoints <> []) by (intros ->; simpl in Hlen; lia).
  destruct (determineComplexity_cases _ Hne) as (mt & m0 & rest & Hm & Hs).
  rewrite (determineComplexity_unfold _ _ _ _ Hm Hs). cbv zeta.
  destruct (results_facts _ _ _ _ Hs) as (H1 & H2 & H3).
  destruct (Rlt_dec mt (1 / 10000)); eexists; (split; [reflexivity|]); simpl; auto.
Qed.

(** C10: in the standard regime the tie-break never moves to a more complex
    model: the rank of the returned best fit is at most the rank of any
    model of minimum RMSE. *)
Theorem occam_never_increases_rank (dataPoints : list DataPoint) (meanTime : R)
      (r : Classification) :
  SS.mean (map time dataPoints) = Ok meanTime ->
  ~ meanTime < 1 / 10000 ->
  determineComplexity dataPoints = Ok r ->
  forall m, In m (models_of dataPoints meanTime) ->
  (forall m', In m' (models_of dataPoints meanTime) -> rmse m <= rmse m') ->
  exists b, In b (models_of dataPoints meanTime) /\ mtype b = bestFit r /\
    (complexity b <= complexity m)%Z.
Proof.
  intros Hm Hstd Hr m Hin Hmin.
  destruct (sorted_models_cons dataPoints meanTime) as (m0 & rest & Hs).
  rewrite (determineComplexity_unfold _ _ _ _ Hm Hs) in Hr. cbv zeta in Hr.
  destruct (Rlt_dec meanTime (1 / 10000)); [contradiction|].
  injection Hr as <-.
  exists (occam_scan m0 rest). split; [|split; [reflexivity|]].
  - apply (Permutation_in _ (sort_by_perm rmse _)). rewrite Hs. apply occam_scan_in.
  - pose proof (sort_by_head_min_rank rmse complexity _ (models_of_rank_sorted dataPoints meanTime))
      as Hh.
    rewrite Hs in Hh. simpl in Hh.
    assert (Hm' : In m (m0 :: rest)).
    { rewrite <- Hs. apply (Permutation_in _ (Permutation_sym (sort_by_perm rmse _))). exact Hin. }
    destruct (Hh m Hm') as [Hle Heq].
    assert (Hle' : rmse m <= rmse m0).
    { apply Hmin. apply (Permutation_in _ (sort_by_perm rmse _)). rewrite Hs. left; reflexivity. }
    pose proof (occam_scan_complexity m0 rest).
    assert (complexity m0 <= complexity m)%Z by (apply Heq; lra).
    lia.
Qed.

(** ** Evaluating the classifier on concrete sample sequences *)

(** Settles the decisions of the definitions unfolded in the goal when the
    hypotheses decide them. *)
Ltac decide_branches :=
  repeat match goal with
  | |- context [Rlt_dec ?a ?b] =>
      destruct (Rlt_dec a b); try (exfalso; lra)
  | |- context [Rle_dec ?a ?b] =>
      destruct (Rle_dec a b); try (exfalso; lra)
  | |- context [Req_EM_T ?a ?b] =>
      destruct (Req_EM_T a b); try (exfalso; lra)
  | |- context [Z_lt_dec ?a ?b] =>
      destruct (Z_lt_dec a b); try (exfalso; lia)
  end.

Ltac eval_sort :=
  unfold sort_by;
  repeat progress (cbn [fold_left insert_by rmse frmse to_fit mtype]; decide_branches).

Lemma mean_one (k : Z) (t : R) : SS.mean (map time [mk k t]) = Ok t.
Proof. simpl. f_equal. field. Qed.

Lemma models_of_one (k : Z) (t : R) :
  models_of [mk k t] t =
  [ {| mtype := label_constant; rmse := 0; complexity := 1 |};
    {| mtype := label_log; rmse := 0; complexity := 2 |};
    {| mtype := label_linear; rmse := 0; complexity := 3 |};
    {| mtype := label_nlogn; rmse := 0; complexity := 4 |};
    {| mtype := label_quadratic; rmse := 0; complexity := 5 |} ].
Proof.
  unfold models_of, getRegressionRMSE, calculateRMSE, SS.linearRegressionLine. simpl.
  repeat match goal with
  | |- context [sqrt ?e] => replace e with 0 by field; rewrite sqrt_0
  end.
  reflexivity.
Qed.

Lemma constant_log_one (k : Z) (t : R) :
  rmse (constant_model [mk k t] t) = 0 /\ rmse (log_model [mk k t]) = 0.
Proof.
  pose proof (models_of_one k t) as H. unfold models_of in H.
  injection H as H1 H2. split; assumption.
Qed.

(** A single sample is classified as constant-time, with confidence 95
    below the ultra-fast threshold and 70 above it. *)
Lemma determineComplexity_one (k : Z) (t : R) :
  determineComplexity [mk k t] =
  Ok {| bestFit := label_constant;
        confidence := if Rlt_dec t (1 / 10000) then 95 else 70;
        results := fits_with [0; 0; 0; 0; 0] |}.
Proof.
  assert (Hs : sort_by rmse (models_of [mk k t] t) =
    [ {| mtype := label_constant; rmse := 0; complexity := 1 |};
      {| mtype := label_log; rmse := 0; complexity := 2 |};
      {| mtype := label_linear; rmse := 0; complexity := 3 |};
      {| mtype := label_nlogn; rmse := 0; complexity := 4 |};
      {| mtype := label_quadratic; rmse := 0; complexity := 5 |} ]).
  { rewrite models_of_one. eval_sort. reflexivity. }
  rewrite (determineComplexity_unfold _ _ _ _ (mean_one k t) Hs). cbv zeta.
  destruct (constant_log_one k t) as [Hc Hl]. rewrite Hc, Hl.
  eval_sort. simpl. decide_branches.
  all: unfold fits_with, to_fit; simpl; do 2 f_equal; try (eval_sort; reflexivity).
  - apply js_round_eq. lra.
  - unfold standard_confidence. eval_sort. simpl. decide_branches.
    unfold js_or. decide_branches.
    rewrite Rmax_right by (unfold Rdiv; rewrite Rmult_0_l; lra).
    rewrite Rmin_right by (unfold Rdiv; rewrite Rminus_0_r, Rmult_0_l; lra).
    apply js_round_eq. unfold Rdiv. rewrite Rminus_0_r, !Rmult_0_l. simpl. lra.
Qed.

(** ** Two and three samples *)

(** Three samples: the residual of the least-squares line is the
    projection of the times on the normal of [(1,1,1)] and [(x1,x2,x3)]. *)
Lemma regression_rmse3 (f : R -> R) (k1 k2 k3 : Z) (t1 t2 t3 : R) :
  3 * (f (IZR k1) * f (IZR k1) + f (IZR k2) * f (IZR k2) + f (IZR k3) * f (IZR k3))
    - (f (IZR k1) + f (IZR k2) + f (IZR k3)) * (f (IZR k1) + f (IZR k2) + f (IZR k3)) <> 0 ->
  getRegressionRMSE [mk k1 t1; mk k2 t2; mk k3 t3] f =
  sqrt ((t1 * (f (IZR k3) - f (IZR k2)) + t2 * (f (IZR k1) - f (IZR k3))
         + t3 * (f (IZR k2) - f (IZR k1))) ^ 2
        / (3 * (f (IZR k1) * f (IZR k1) + f (IZR k2) * f (IZR k2) + f (IZR k3) * f (IZR k3))
           - (f (IZR k1) + f (IZR k2) + f (IZR k3)) * (f (IZR k1) + f (IZR k2) + f (IZR k3)))
        / 3).
Proof.
  intros HD.
  unfold getRegressionRMSE, calculateRMSE, SS.linearRegression, SS.linearRegressionLine.
  cbn [map combine SS.sum fst snd List.length INR time n mk].
  set (x1 := f (IZR k1)) in *. set (x2 := f (IZR k2)) in *. set (x3 := f (IZR k3)) in *.
  f_equal. field. intros H. apply HD. rewrite <- H. ring.
Qed.

(** Two samples with distinct abscissas are fitted exactly. *)
Lemma regression_rmse2 (f : R -> R) (k1 k2 : Z) (t1 t2 : R) :
  f (IZR k1) <> f (IZR k2) ->
  getRegressionRMSE [mk k1 t1; mk k2 t2] f = 0.
Proof.
  intros Hx.
  unfold getRegressionRMSE, calculateRMSE, SS.linearRegression, SS.linearRegressionLine.
  cbn [map combine SS.sum fst snd List.length INR time n mk].
  set (x1 := f (IZR k1)) in *. set (x2 := f (IZR k2)) in *.
  match goal with |- sqrt ?e = 0 => replace e with 0 end; [apply sqrt_0|].
  field. intros H. apply Hx. nra.
Qed.

Lemma ln2_pos : 0 < ln 2.
Proof. rewrite <- ln_1. apply ln_increasing; lra. Qed.

Lemma ln4 : ln 4 = 2 * ln 2.
Proof. replace 4 with (2 * 2) by lra. rewrite ln_mult by lra. ring. Qed.

Ltac three_rmse :=
  unfold samples_three; rewrite regression_rmse3; cbv beta;
  try rewrite ln_1; try rewrite ln4;
  [f_equal; field; pose proof ln2_pos; try lra; intros ?; nra
  |pose proof ln2_pos; intros ?; nra].

Lemma three_linear : getRegressionRMSE samples_three (fun x => x) = sqrt (2209 / 42).
Proof. three_rmse. Qed.
Lemma three_quadratic : getRegressionRMSE samples_three (fun x => x ^ 2) = sqrt (625 / 14).
Proof. three_rmse. Qed.
Lemma three_log : getRegressionRMSE samples_three (fun x => ln x) = sqrt (121 / 2).
Proof. three_rmse. Qed.
Lemma three_nlogn : getRegressionRMSE samples_three (fun x => x * ln x) = sqrt (3721 / 78).
Proof. three_rmse. Qed.
Lemma three_constant :
  calculateRMSE (map time samples_three) (map (fun _ => 11) samples_three) = sqrt (194 / 3).
Proof. unfold calculateRMSE, samples_three. cbn. f_equal. field. Qed.

Lemma mean_three : SS.mean (map time samples_three) = Ok 11.
Proof. unfold samples_three. simpl. f_equal. field. Qed.

Lemma models_of_three :
  models_of samples_three 11 =
  [ {| mtype := label_constant; rmse := sqrt (194 / 3); complexity := 1 |};
    {| mtype := label_log; rmse := sqrt (121 / 2); complexity := 2 |};
    {| mtype := label_linear; rmse := sqrt (2209 / 42); complexity := 3 |};
    {| mtype := label_nlogn; rmse := sqrt (3721 / 78); complexity := 4 |};
    {| mtype := label_quadratic; rmse := sqrt (625 / 14); complexity := 5 |} ].
Proof.
  unfold models_of. cbv zeta.
  rewrite three_constant, three_linear, three_quadratic, three_log, three_nlogn.
  reflexivity.
Qed.

Lemma sqrt_scaled (c a : R) : 0 <= c -> 0 <= a -> sqrt (c ^ 2 * a) = c * sqrt a.
Proof.
  intros Hc Ha. rewrite sqrt_mult_alt by (apply pow2_ge_0).
  rewrite sqrt_pow2 by exact Hc. reflexivity.
Qed.

Lemma sqrt_ratio_lt (a b : R) :
  0 < b -> 0 <= a -> a < (23 / 20) ^ 2 * b -> (sqrt a - sqrt b) / sqrt b < 15 / 100.
Proof.
  intros Hb Ha Hab.
  assert (Hs : sqrt a < 23 / 20 * sqrt b).
  { rewrite <- sqrt_scaled by lra. apply sqrt_lt_1_alt. lra. }
  pose proof (sqrt_lt_R0 b Hb) as Hsb.
  apply (Rmult_lt_reg_r (sqrt b)); [exact Hsb|].
  unfold Rdiv. rewrite Rmult_assoc, Rinv_l by lra. lra.
Qed.

Lemma sqrt_ratio_ge (a b : R) :
  0 < b -> (23 / 20) ^ 2 * b <= a -> ~ (sqrt a - sqrt b) / sqrt b < 15 / 100.
Proof.
  intros Hb Hab.
  assert (Hs : 23 / 20 * sqrt b <= sqrt a).
  { rewrite <- sqrt_scaled by lra. apply sqrt_le_1_alt. exact Hab. }
  pose proof (sqrt_lt_R0 b Hb) as Hsb.
  intros Hlt. apply (Rmult_lt_compat_r (sqrt b)) in Hlt; [|exact Hsb].
  unfold Rdiv in Hlt. rewrite Rmult_assoc, Rinv_l in Hlt by lra. lra.
Qed.

Lemma sqrt_lt (a b : R) : 0 <= a -> a < b -> sqrt a < sqrt b.
Proof. intros. apply sqrt_lt_1_alt. lra. Qed.

(** As [decide_branches], also using the decided facts of the context. *)
Ltac decide_branches2 :=
  repeat match goal with
  | |- context [Rlt_dec ?a ?b] =>
      destruct (Rlt_dec a b); try contradiction; try (exfalso; lra)
  | |- context [Rle_dec ?a ?b] =>
      destruct (Rle_dec a b); try contradiction; try (exfalso; lra)
  | |- context [Req_EM_T ?a ?b] =>
      destruct (Req_EM_T a b); try contradiction; try (exfalso; lra)
  | |- context [Z_lt_dec ?a ?b] =>
      destruct (Z_lt_dec a b); try (exfalso; lia)
  end.

Ltac eval_sort2 :=
  unfold sort_by;
  repeat progress (cbn [fold_left insert_by rmse frmse to_fit mtype]; decide_branches2).

Lemma js_or_nz (x d : R) : x <> 0 -> js_or x d = x.
Proof. intros H. unfold js_or. destruct (Req_EM_T x 0); [contradiction|reflexivity]. Qed.

Lemma occam_promote (b c : Model) (l : list Model) :
  (complexity c < complexity b)%Z -> rmse b <> 0 ->
  (rmse c - rmse b) / rmse b < 15 / 100 ->
  occam_scan b (c :: l) = occam_scan c l.
Proof.
  intros Hc Hb Hr. simpl. rewrite js_or_nz by exact Hb.
  destruct (Z_lt_dec _ _); [|contradiction]. destruct (Rlt_dec _ _); [reflexivity|contradiction].
Qed.

Lemma occam_keep_rmse (b c : Model) (l : list Model) :
  rmse b <> 0 -> ~ (rmse c - rmse b) / rmse b < 15 / 100 ->
  occam_scan b (c :: l) = occam_scan b l.
Proof.
  intros Hb Hr. simpl. rewrite js_or_nz by exact Hb.
  destruct (Z_lt_dec _ _); [|reflexivity]. destruct (Rlt_dec _ _); [contradiction|reflexivity].
Qed.

Lemma occam_keep_rank (b c : Model) (l : list Model) :
  ~ (complexity c < complexity b)%Z -> occam_scan b (c :: l) = occam_scan b l.
Proof. intros Hc. simpl. destruct (Z_lt_dec _ _); [contradiction|reflexivity]. Qed.

Lemma three_order :
  sqrt (625 / 14) < sqrt (3721 / 78) /\ sqrt (3721 / 78) < sqrt (2209 / 42) /\
  sqrt (2209 / 42) < sqrt (121 / 2) /\ sqrt (121 / 2) < sqrt (194 / 3) /\ 0 < sqrt (625 / 14).
Proof.
  repeat split; first [apply sqrt_lt; lra | apply sqrt_lt_R0; lra].
Qed.

Lemma sorted_three :
  sort_by rmse (models_of samples_three 11) =
    [ {| mtype := label_quadratic; rmse := sqrt (625 / 14); complexity := 5 |};
      {| mtype := label_nlogn; rmse := sqrt (3721 / 78); complexity := 4 |};
      {| mtype := label_linear; rmse := sqrt (2209 / 42); complexity := 3 |};
      {| mtype := label_log; rmse := sqrt (121 / 2); complexity := 2 |};
      {| mtype := label_constant; rmse := sqrt (194 / 3); complexity := 1 |} ].
Proof.
  pose proof three_order as (hQG & hGL & hLK & hKC & hQ).
  rewrite models_of_three. eval_sort2. reflexivity.
Qed.

(** Sizes [1, 2, 4], times [14, 0, 19]: the scan climbs from the
    quadratic model down to the constant one, and the confidence is [-6]. *)
Lemma determineComplexity_three :
  exists res, determineComplexity samples_three =
    Ok {| bestFit := label_constant; confidence := -6; results := res |}.
Proof.
  pose proof three_order as (hQG & hGL & hLK & hKC & hQ).
  pose proof sorted_three as Hs.
  rewrite (determineComplexity_unfold _ _ _ _ mean_three Hs). cbv zeta.
  destruct (Rlt_dec 11 (1 / 10000)); [lra|].
  rewrite occam_promote by (simpl; first [lia | lra | apply sqrt_ratio_lt; lra]).
  rewrite occam_promote by (simpl; first [lia | lra | apply sqrt_ratio_lt; lra]).
  rewrite occam_promote by (simpl; first [lia | lra | apply sqrt_ratio_lt; lra]).
  rewrite occam_promote by (simpl; first [lia | lra | apply sqrt_ratio_lt; lra]).
  cbn [occam_scan mtype]. eexists. do 2 f_equal.
  unfold standard_confidence. cbv zeta.
  match goal with |- context [sort_by rmse ?l] =>
    replace (sort_by rmse l) with l by (eval_sort2; reflexivity) end.
  assert (Hsm : same_model {| mtype := label_quadratic; rmse := sqrt (625 / 14); complexity := 5 |}
                  {| mtype := label_constant; rmse := sqrt (194 / 3); complexity := 1 |} = false)
    by reflexivity.
  rewrite Hsm. cbn [rmse]. rewrite js_or_nz by lra.
  destruct (Rlt_dec 0 11); [|lra].
  assert (Ha : 11 / 2 < sqrt (194 / 3)).
  { replace (11 / 2) with (sqrt ((11 / 2) ^ 2)) by (rewrite sqrt_pow2; lra).
    apply sqrt_lt; lra. }
  rewrite Rmax_left by lra.
  assert (Hlo : 119 / 100 * sqrt (625 / 14) < sqrt (194 / 3)).
  { rewrite <- sqrt_scaled by lra. apply sqrt_lt; lra. }
  assert (Hhi : sqrt (194 / 3) < 121 / 100 * sqrt (625 / 14)).
  { rewrite <- sqrt_scaled by lra. apply sqrt_lt; lra. }
  set (q := sqrt (625 / 14)) in *. set (a := sqrt (194 / 3)) in *.
  assert (Ht : (q - a) / q * q = q - a) by (field; lra).
  set (t := (q - a) / q) in *.
  assert (Htlo : -21 / 100 < t) by nra.
  assert (Hthi : t < -19 / 100) by nra.
  rewrite Rmin_right by lra.
  apply js_round_eq. lra.
Qed.

Lemma spec_promote (b c : Model) (l : list Model) :
  (complexity c < complexity b)%Z -> (rmse c - rmse b) / rmse b < 15 / 100 ->
  spec_rank_order_scan b (c :: l) = spec_rank_order_scan c l.
Proof.
  intros Hc Hr. simpl.
  destruct (Z_lt_dec _ _); [|contradiction]. destruct (Rlt_dec _ _); [reflexivity|contradiction].
Qed.

Lemma spec_keep_rmse (b c : Model) (l : list Model) :
  ~ (rmse c - rmse b) / rmse b < 15 / 100 ->
  spec_rank_order_scan b (c :: l) = spec_rank_order_scan b l.
Proof.
  intros Hr. simpl.
  destruct (Z_lt_dec _ _); [|reflexivity]. destruct (Rlt_dec _ _); [contradiction|reflexivity].
Qed.

Lemma spec_keep_rank (b c : Model) (l : list Model) :
  ~ (complexity c < complexity b)%Z ->
  spec_rank_order_scan b (c :: l) = spec_rank_order_scan b l.
Proof. intros Hc. simpl. destruct (Z_lt_dec _ _); [contradiction|reflexivity]. Qed.

(** The rank-order reading of the tie-break picks the linear model. *)
Lemma spec_rank_order_three :
  option_map mtype (spec_rank_order_best samples_three 11) = Some label_linear.
Proof.
  assert (hQ : 0 < 625 / 14) by lra.
  pose proof (sqrt_ratio_ge (194 / 3) (625 / 14) hQ ltac:(lra)) as rCQ.
  pose proof (sqrt_ratio_ge (121 / 2) (625 / 14) hQ ltac:(lra)) as rKQ.
  pose proof (sqrt_ratio_lt (2209 / 42) (625 / 14) hQ ltac:(lra) ltac:(lra)) as rLQ.
  unfold spec_rank_order_best. rewrite sorted_three, models_of_three.
  rewrite spec_keep_rmse by exact rCQ.
  rewrite spec_keep_rmse by exact rKQ.
  rewrite spec_promote by (simpl; first [lia | exact rLQ]).
  rewrite spec_keep_rank by (simpl; lia).
  rewrite spec_keep_rank by (simpl; lia).
  reflexivity.
Qed.

Lemma mean_negative : SS.mean (map time samples_negative) = Ok 0.
Proof. unfold samples_negative. simpl. f_equal. field. Qed.

Lemma ln_ne_1_2 : ln (IZR 1) <> ln (IZR 2).
Proof. simpl. rewrite ln_1. pose proof ln2_pos. lra. Qed.

Lemma models_of_pair (t1 t2 mt : R) :
  models_of [mk 1 t1; mk 2 t2] mt =
  [ {| mtype := label_constant;
       rmse := calculateRMSE [t1; t2] [mt; mt]; complexity := 1 |};
    {| mtype := label_log; rmse := 0; complexity := 2 |};
    {| mtype := label_linear; rmse := 0; complexity := 3 |};
    {| mtype := label_nlogn; rmse := 0; complexity := 4 |};
    {| mtype := label_quadratic; rmse := 0; complexity := 5 |} ].
Proof.
  pose proof ln2_pos.
  unfold models_of. cbv zeta.
  rewrite !regression_rmse2; [reflexivity| | | |].
  all: cbv beta; try rewrite ln_1; intros ?; lra.
Qed.

Lemma sort_pair (c : R) :
  0 < c ->
  sort_by rmse
    [ {| mtype := label_constant; rmse := c; complexity := 1 |};
      {| mtype := label_log; rmse := 0; complexity := 2 |};
      {| mtype := label_linear; rmse := 0; complexity := 3 |};
      {| mtype := label_nlogn; rmse := 0; complexity := 4 |};
      {| mtype := label_quadratic; rmse := 0; complexity := 5 |} ] =
    [ {| mtype := label_log; rmse := 0; complexity := 2 |};
      {| mtype := label_linear; rmse := 0; complexity := 3 |};
      {| mtype := label_nlogn; rmse := 0; complexity := 4 |};
      {| mtype := label_quadratic; rmse := 0; complexity := 5 |};
      {| mtype := label_constant; rmse := c; complexity := 1 |} ].
Proof. intros Hc. eval_sort2. reflexivity. Qed.

Lemma rmse_negative : calculateRMSE [-1; 1] [0; 0] = 1.
Proof.
  unfold calculateRMSE. cbn.
  match goal with |- sqrt ?e = 1 => replace e with 1 by field end. apply sqrt_1.
Qed.

Lemma determineComplexity_negative :
  exists res, determineComplexity samples_negative =
    Ok {| bestFit := label_log; confidence := 95; results := res |}.
Proof.
  assert (Hm : models_of samples_negative 0 =
    [ {| mtype := label_constant; rmse := 1; complexity := 1 |};
      {| mtype := label_log; rmse := 0; complexity := 2 |};
      {| mtype := label_linear; rmse := 0; complexity := 3 |};
      {| mtype := label_nlogn; rmse := 0; complexity := 4 |};
      {| mtype := label_quadratic; rmse := 0; complexity := 5 |} ]).
  { unfold samples_negative. rewrite models_of_pair, rmse_negative. reflexivity. }
  assert (Hs := sort_pair 1 ltac:(lra)). rewrite <- Hm in Hs.
  rewrite (determineComplexity_unfold _ _ _ _ mean_negative Hs). cbv zeta.
  destruct (Rlt_dec 0 (1 / 10000)); [|lra].
  assert (Hl : rmse (log_model samples_negative) = 0).
  { unfold log_model, samples_negative. cbn [rmse]. apply regression_rmse2. exact ln_ne_1_2. }
  assert (Hc : rmse (constant_model samples_negative 0) = 1).
  { unfold constant_model, samples_negative. cbn [rmse map time mk]. exact rmse_negative. }
  rewrite Hl, Hc. destruct (Rlt_dec 0 1); [|lra].
  eexists. do 2 f_equal. apply js_round_eq. lra.
Qed.

Lemma clamp_negative : map clamp_time samples_negative = [mk 1 0; mk 2 1].
Proof.
  unfold samples_negative, clamp_time, mk. cbn [map n time].
  rewrite Rmax_left, Rmax_right by lra. reflexivity.
Qed.

Lemma rmse_clamped : calculateRMSE [0; 1] [1 / 2; 1 / 2] = 1 / 2.
Proof.
  unfold calculateRMSE. cbn.
  match goal with |- sqrt ?e = _ => replace e with ((1 / 2) ^ 2) by field end.
  apply sqrt_pow2. lra.
Qed.

Lemma spec_clamp_negative :
  exists res, spec_clamp_invalid samples_negative =
    Ok {| bestFit := label_log; confidence := 70; results := res |}.
Proof.
  unfold spec_clamp_invalid. rewrite clamp_negative.
  assert (Hmean : SS.mean (map time [mk 1 0; mk 2 1]) = Ok (1 / 2)).
  { simpl. f_equal. field. }
  assert (Hm : models_of [mk 1 0; mk 2 1] (1 / 2) =
    [ {| mtype := label_constant; rmse := 1 / 2; complexity := 1 |};
      {| mtype := label_log; rmse := 0; complexity := 2 |};
      {| mtype := label_linear; rmse := 0; complexity := 3 |};
      {| mtype := label_nlogn; rmse := 0; complexity := 4 |};
      {| mtype := label_quadratic; rmse := 0; complexity := 5 |} ]).
  { rewrite models_of_pair, rmse_clamped. reflexivity. }
  assert (Hs := sort_pair (1 / 2) ltac:(lra)). rewrite <- Hm in Hs.
  rewrite (determineComplexity_unfold _ _ _ _ Hmean Hs). cbv zeta.
  destruct (Rlt_dec (1 / 2) (1 / 10000)); [lra|].
  rewrite !occam_keep_rank by (simpl; lia).
  assert (Hsc : occam_scan {| mtype := label_log; rmse := 0; complexity := 2 |}
                  [{| mtype := label_constant; rmse := 1 / 2; complexity := 1 |}] =
                {| mtype := label_log; rmse := 0; complexity := 2 |}).
  { simpl. unfold js_or. destruct (Req_EM_T 0 0) as [_|]; [|lra].
    destruct (Z_lt_dec 1 2); [|lia]. destruct (Rlt_dec _ _); [lra|reflexivity]. }
  rewrite Hsc. eexists. do 2 f_equal.
  unfold standard_confidence. cbv zeta.
  match goal with |- context [sort_by rmse ?l] =>
    replace (sort_by rmse l) with l by (eval_sort2; reflexivity) end.
  assert (Hsm : same_model {| mtype := label_log; rmse := 0; complexity := 2 |}
                  {| mtype := label_log; rmse := 0; complexity := 2 |} = true)
    by reflexivity.
  rewrite Hsm. cbn [rmse]. unfold js_or.
  destruct (Rlt_dec 0 (1 / 2)); [|lra]. destruct (Req_EM_T 0 0) as [_|]; [|lra].
  rewrite Rmax_right by (unfold Rdiv; lra).
  rewrite Rmin_right by (unfold Rdiv; lra).
  apply js_round_eq. unfold Rdiv. lra.
Qed.

Lemma spec_drop_negative : spec_drop_invalid samples_negative = Ok degenerate.
Proof.
  unfold spec_drop_invalid, samples_negative, valid_time. cbn [filter time mk].
  destruct (Rle_dec 0 (-1)); [lra|]. destruct (Rle_dec 0 1); [|lra]. reflexivity.
Qed.

(** ** The benchmarker *)

Open Scope Q_scope.

Lemma repeat_snoc {A} (x : A) (m : nat) (l : list A) :
  repeat x m ++ x :: l = repeat x (S m) ++ l.
Proof. induction m as [|m IH]; simpl; [reflexivity|now rewrite IH]. Qed.

(** The calibration bound is a large unary number: proofs never unfold it. *)
Lemma cal_fuel_Z : Z.of_nat cal_fuel = 1000000%Z.
Proof. unfold cal_fuel. rewrite Z2Nat.id; lia. Qed.

Opaque cal_fuel.

Section BenchFacts.
Variable now_at : nat -> Q.
Variable raises_at : nat -> Input -> bool.

(** The calibration loop from any state of its counter: it returns once
    its guard fails: elapsed time at least 5 or the count at the ceiling;
    every earlier reading was below the threshold. *)
Lemma cal_loop_ok (fuel : nat) :
  forall x calStart calEnd calCount s e c s',
  (0 <= calCount)%Z -> (calCount + Z.of_nat fuel = 1000000)%Z ->
  cal_loop now_at raises_at fuel x calStart calEnd calCount s = (Ok (e, c), s') ->
  exists m : nat,
    c = (calCount + Z.of_nat m)%Z /\ (c <= 1000000)%Z /\
    (5 <= e - calStart \/ c = 1000000%Z) /\
    calls s' = repeat x m ++ calls s /\ reads s' = (reads s + m)%nat /\
    (m = O -> e = calEnd) /\
    (m <> O -> calEnd - calStart < 5 /\ e = now_at (reads s + m - 1) /\
       forall j, (j + 1 < m)%nat -> now_at (reads s + j) - calStart < 5).
Proof.
  induction fuel as [|fuel IH]; intros x calStart calEnd calCount s e c s' H0 Hf Hrun.
  - simpl in Hrun. injection Hrun as <- <- <-. exists O.
    repeat split; try lia; try (intros; lia); try (intros; contradiction).
    all: try (right; simpl in Hf; lia).
  - simpl in Hrun.
    destruct (Qltb (calEnd - calStart) 5 && Z.ltb calCount 1000000) eqn:Hg.
    + apply andb_true_iff in Hg as [Hlt Hcnt].
      unfold Qltb in Hlt. apply negb_true_iff in Hlt.
      assert (Hlt' : calEnd - calStart < 5).
      { apply Qnot_le_lt. intros Hle. apply Qle_bool_iff in Hle. congruence. }
      unfold bind, call_alg in Hrun.
      destruct (raises_at (List.length (calls s)) x); [discriminate|].
      unfold now in Hrun. simpl in Hrun.
      apply IH in Hrun as (m & Hc & Hle & Hexit & Hcalls & Hreads & Hm0 & HmS);
        [|lia|lia].
      simpl in Hcalls, Hreads.
      exists (S m). repeat split.
      * lia.
      * exact Hle.
      * exact Hexit.
      * rewrite Hcalls. apply repeat_snoc.
      * lia.
      * discriminate.
      * exact Hlt'.
      * destruct m as [|m].
        -- rewrite (Hm0 eq_refl). f_equal. clear. lia.
        -- destruct (HmS ltac:(discriminate)) as (_ & He & _). rewrite He. f_equal. simpl. clear. lia.
      * intros j Hj. destruct j as [|j].
        -- rewrite Nat.add_0_r. destruct m as [|m]; [lia|].
           apply (HmS ltac:(discriminate)).
        -- destruct m as [|m]; [lia|].
           destruct (HmS ltac:(discriminate)) as (_ & _ & Hall).
           replace (reads s + S j)%nat with (S (reads s) + j)%nat by lia.
           apply Hall. lia.
    + injection Hrun as <- <- <-. exists O.
      apply andb_false_iff in Hg.
      repeat split; try lia; try (intros; contradiction).
      destruct Hg as [Hg|Hg].
      * left. unfold Qltb in Hg. apply negb_false_iff, Qle_bool_iff in Hg. exact Hg.
      * right. apply Z.ltb_ge in Hg. lia.
Qed.

Lemma cal_loop_err (fuel : nat) :
  forall x calStart calEnd calCount s s',
  cal_loop now_at raises_at fuel x calStart calEnd calCount s = (Err, s') ->
  exists j, raises_at (List.length (calls s) + j) x = true.
Proof.
  induction fuel as [|fuel IH]; intros x calStart calEnd calCount s s' Hrun;
    simpl in Hrun; [discriminate|].
  destruct (_ && _); [|discriminate].
  unfold bind, call_alg in Hrun.
  destruct (raises_at (List.length (calls s)) x) eqn:Hr.
  - exists O. rewrite Nat.add_0_r. exact Hr.
  - unfold now in Hrun. simpl in Hrun.
    apply IH in Hrun as [j Hj]. simpl in Hj. exists (S j).
    rewrite <- Hj. f_equal. lia.
Qed.

Lemma mapM_forall2 {A B} (f : A -> M B) (P : A -> B -> Prop) :
  (forall x s y s', f x s = (Ok y, s') -> P x y) ->
  forall l s ys s', mapM f l s = (Ok ys, s') -> Forall2 P l ys.
Proof.
  intros Hf l. induction l as [|x l IH]; intros s ys s' Hrun; simpl in Hrun.
  - injection Hrun as <- _. constructor.
  - unfold bind, ret in Hrun.
    destruct (f x s) as [[y|] s1] eqn:E1; [|discriminate].
    destruct (mapM f l s1) as [[ys1|] s2] eqn:E2; [|discriminate].
    injection Hrun as <- _. constructor; [eapply Hf; exact E1|eapply IH; exact E2].
Qed.

Lemma measure_size_n (iterations : nat) (inputMode : InputMode) (k : Z) :
  forall s smp s', measure_size now_at raises_at iterations inputMode k s = (Ok smp, s') ->
  s_n smp = k.
Proof.
  intros s smp s' Hrun. unfold measure_size, bind, ret, lift in Hrun.
  destruct (input_for inputMode k) as [x|]; cbn beta iota in Hrun; [|discriminate].
  destruct (now now_at s) as [[a|] s1]; [|discriminate].
  destruct (cal_loop _ _ _ _ _ _ _ s1) as [[cal|] s2]; [|discriminate].
  destruct (measure _ _ _ _ _ _ s2) as [[ts|] s3]; [|discriminate].
  destruct (Qmean ts); [|discriminate].
  injection Hrun as <- _. reflexivity.
Qed.

Section NoRaise.
Hypothesis no_raise : forall k x, raises_at k x = false.

Lemma input_for_ok (inputMode : InputMode) (k : Z) :
  input_buildable inputMode k -> exists x, input_for inputMode k = Ok x.
Proof.
  destruct inputMode; simpl; intros Hk; [|eauto].
  unfold generateInputArray. destruct (Z.ltb_spec max_array_length k); [lia|eauto].
Qed.

Lemma repeat_call_ok (k : nat) (x : Input) :
  forall s, exists s', repeat_call raises_at k x s = (Ok tt, s').
Proof.
  induction k as [|k IH]; intros s; simpl; [eexists; reflexivity|].
  unfold bind at 1, call_alg. rewrite no_raise. apply IH.
Qed.

Lemma cal_loop_total (fuel : nat) :
  forall x calStart calEnd calCount s,
  exists r s', cal_loop now_at raises_at fuel x calStart calEnd calCount s = (Ok r, s').
Proof.
  induction fuel as [|fuel IH]; intros x calStart calEnd calCount s; simpl;
    [do 2 eexists; reflexivity|].
  destruct (_ && _); [|do 2 eexists; reflexivity].
  unfold bind at 1, call_alg. rewrite no_raise. apply IH.
Qed.

Lemma measure_ok (iterations : nat) (inputMode : InputMode) (k b : Z) :
  input_buildable inputMode k ->
  forall s, exists ts s', measure now_at raises_at iterations inputMode k b s = (Ok ts, s') /\
    List.length ts = iterations.
Proof.
  intros Hk. destruct (input_for_ok inputMode k Hk) as [x Hx].
  induction iterations as [|it IH]; intros s; simpl; [do 2 eexists; split; reflexivity|].
  unfold bind at 1, lift. rewrite Hx. unfold bind at 1. simpl.
  destruct (repeat_call_ok (Z.to_nat b) x
              {| reads := S (reads s); calls := calls s |}) as [s1 E1].
  unfold bind at 1. rewrite E1. unfold bind at 1. simpl.
  destruct (IH {| reads := S (reads s1); calls := calls s1 |}) as (ts & s2 & E2 & Hl).
  unfold bind. rewrite E2. do 2 eexists. split; [reflexivity|simpl; lia].
Qed.

Lemma measure_size_ok (iterations : nat) (inputMode : InputMode) (k : Z) :
  (1 <= iterations)%nat -> input_buildable inputMode k ->
  forall s, exists smp s', measure_size now_at raises_at iterations inputMode k s = (Ok smp, s').
Proof.
  intros Hit Hk s. destruct (input_for_ok inputMode k Hk) as [x Hx].
  unfold measure_size, bind at 1, lift. rewrite Hx. unfold bind at 1. simpl.
  destruct (cal_loop_total cal_fuel x (now_at (reads s)) (now_at (reads s)) 0
              {| reads := S (reads s); calls := calls s |}) as (cal & s1 & E1).
  unfold bind at 1. rewrite E1.
  destruct (measure_ok iterations inputMode k
              (batch_size (snd cal) (fst cal - now_at (reads s))) Hk s1) as (ts & s2 & E2 & Hl).
  unfold bind at 1. rewrite E2.
  destruct ts as [|t ts]; [simpl in Hl; lia|].
  do 2 eexists. reflexivity.
Qed.

Lemma mapM_measure_ok (iterations : nat) (inputMode : InputMode) :
  (1 <= iterations)%nat ->
  forall l s, Forall (input_buildable inputMode) l ->
  exists ys s', mapM (measure_size now_at raises_at iterations inputMode) l s = (Ok ys, s').
Proof.
  intros Hit l. induction l as [|k l IH]; intros s Hl; simpl; [do 2 eexists; reflexivity|].
  inversion Hl as [|? ? Hk Hl']; subst.
  destruct (measure_size_ok iterations inputMode k Hit Hk s) as (smp & s1 & E1).
  unfold bind at 1. rewrite E1.
  destruct (IH s1 Hl') as (ys & s2 & E2). unfold bind. rewrite E2. do 2 eexists; reflexivity.
Qed.

Lemma warmup_ok (inputMode : InputMode) (inputSizes : list Z) :
  Forall (input_buildable inputMode) inputSizes ->
  forall s, exists s', warmup raises_at inputMode inputSizes s = (Ok tt, s').
Proof.
  intros Hl s. destruct inputSizes as [|k ks]; [eexists; reflexivity|].
  inversion Hl as [|? ? Hk _]; subst.
  destruct (input_for_ok inputMode k Hk) as [x Hx].
  unfold warmup, bind, lift. rewrite Hx. apply repeat_call_ok.
Qed.

End NoRaise.
End BenchFacts.

Open Scope R_scope.

(** C1 (counterexample): [determineComplexity] has no guard for short
    sequences: one sample is classified as constant-time (not the degenerate
    result), and the empty sequence throws. *)
Lemma classify_short_not_degenerate :
  determineComplexity samples_one <> Ok degenerate /\ determineComplexity [] = Err.
Proof.
  split; [|reflexivity].
  unfold samples_one. rewrite determineComplexity_one. intros H.
  injection H as Hb _ _. discriminate Hb.
Qed.

(** C1 (amended): the degenerate result [{bestFit: 'N/A', confidence: 0,
    results: []}] is what [runSingleAnalysis] returns, without reading the
    clock or invoking the algorithm, when fewer than two input sizes are
    requested; [determineComplexity] itself classifies a single sample as
    constant-time (confidence 95 below the ultra-fast threshold, 70 above) and
    throws on an empty sequence. *)
Theorem short_input_degenerate_in_runner (now_at : nat -> Q) (raises_at : nat -> Input -> bool)
      (inputSizes : list Z) (iterations : nat) (inputMode : InputMode) (s : St) :
  (List.length inputSizes < 2)%nat ->
  runSingleAnalysis now_at raises_at inputSizes iterations inputMode s = (Ok degenerate, s) /\
  (forall k t, determineComplexity [mk k t] =
     Ok {| bestFit := label_constant;
           confidence := if Rlt_dec t (1 / 10000) then 95 else 70;
           results := fits_with [0; 0; 0; 0; 0] |}) /\
  determineComplexity [] = Err.
Proof.
  intros Hlen. split; [|split; [apply determineComplexity_one|reflexivity]].
  unfold runSingleAnalysis. apply Nat.ltb_lt in Hlen. rewrite Hlen. reflexivity.
Qed.

Lemma short_input_degenerate_in_runner_witness :
  (List.length [10%Z] < 2)%nat /\
  runSingleAnalysis clock_step6 never_raises [10%Z] 10 ModeArray {| reads := 0; calls := [] |} =
    (Ok degenerate, {| reads := 0; calls := [] |}).
Proof.
  split; [simpl; lia|].
  apply (short_input_degenerate_in_runner clock_step6 never_raises [10%Z] 10 ModeArray
           {| reads := 0; calls := [] |}). simpl; lia.
Defined.

Open Scope Q_scope.

(** C7 (counterexample): in array mode a size of [2^32] makes
    [generateInputArray] throw a [RangeError] at the warmup: [runAnalysis]
    fails before reading the clock or invoking the algorithm, and returns
    no samples. *)
Lemma array_size_range_error :
  runAnalysis clock_step6 never_raises [4294967296%Z] 1 ModeArray {| reads := 0; calls := [] |}
    = (Err, {| reads := 0; calls := [] |}).
Proof. vm_compute. reflexivity. Qed.

(** C7 (amended): with an algorithm that never throws, at least one
    iteration, and sizes whose input can be built (any size in number mode,
    sizes up to [2^32 - 1] in array mode), [runAnalysis] returns one sample
    per requested size, carrying the sizes in input order; on an empty list
    of sizes it returns [[]] without reading the clock or invoking the
    algorithm (the state is unchanged). *)
Theorem runAnalysis_one_sample_per_size (now_at : nat -> Q) (raises_at : nat -> Input -> bool)
      (inputSizes : list Z) (iterations : nat) (inputMode : InputMode) (s : St) :
  (forall k x, raises_at k x = false) -> (1 <= iterations)%nat ->
  Forall (input_buildable inputMode) inputSizes ->
  (exists samples s',
     runAnalysis now_at raises_at inputSizes iterations inputMode s = (Ok samples, s') /\
     map s_n samples = inputSizes) /\
  runAnalysis now_at raises_at [] iterations inputMode s = (Ok [], s).
Proof.
  intros Hnr Hit Hb. split; [|reflexivity].
  unfold runAnalysis, bind at 1.
  destruct (warmup_ok raises_at Hnr inputMode inputSizes Hb s) as [s1 E1]. rewrite E1.
  destruct (mapM_measure_ok now_at raises_at Hnr iterations inputMode Hit inputSizes s1 Hb)
    as (ys & s2 & E2).
  exists ys, s2. split; [exact E2|].
  assert (HF : Forall2 (fun k smp => s_n smp = k) inputSizes ys).
  { eapply mapM_forall2; [|exact E2]. intros x s0 y s0'. apply measure_size_n. }
  clear E1 E2 Hb. induction HF as [|k smp ks ys' Hk _ IH].
  - reflexivity.
  - simpl. rewrite Hk, IH. reflexivity.
Qed.

Lemma runAnalysis_one_sample_per_size_witness :
  (forall k x, never_raises k x = false) /\ (1 <= 1)%nat /\
  Forall (input_buildable ModeArray) [10%Z; 100%Z] /\
  exists samples s',
    runAnalysis clock_step6 never_raises [10%Z; 100%Z] 1 ModeArray {| reads := 0; calls := [] |}
      = (Ok samples, s') /\ map s_n samples = [10%Z; 100%Z].
Proof.
  assert (Hb : Forall (input_buildable ModeArray) [10%Z; 100%Z]).
  { repeat constructor; cbn; unfold max_array_length; lia. }
  split; [reflexivity|split; [lia|split; [exact Hb|]]].
  apply (runAnalysis_one_sample_per_size clock_step6 never_raises [10%Z; 100%Z] 1 ModeArray
           {| reads := 0; calls := [] |}); [reflexivity|lia|exact Hb].
Defined.

(** C8: whatever the clock returns (also a clock that never advances) and
    whatever the algorithm does, the calibration loop ends: either an
    invocation of the algorithm threw, or it stopped after [calCount]
    invocations, [1 <= calCount <= 10^6], at the first reading with elapsed
    time at least 5 or at the ceiling of 10^6 invocations, all readings
    before that one being below 5. *)
Theorem calibration_terminates (now_at : nat -> Q) (raises_at : nat -> Input -> bool)
      (x : Input) (calStart : Q) (s : St) :
  match cal_loop now_at raises_at cal_fuel x calStart calStart 0 s with
  | (Ok (calEnd, calCount), s') =>
      (1 <= calCount <= 1000000)%Z /\
      (5 <= calEnd - calStart \/ calCount = 1000000%Z) /\
      calEnd = now_at (reads s + Z.to_nat calCount - 1)%nat /\
      (forall j, (j + 1 < Z.to_nat calCount)%nat -> now_at (reads s + j)%nat - calStart < 5) /\
      calls s' = repeat x (Z.to_nat calCount) ++ calls s
  | (Err, _) => exists j, raises_at (List.length (calls s) + j)%nat x = true
  end.
Proof.
  destruct (cal_loop now_at raises_at cal_fuel x calStart calStart 0 s)
    as [[[e c]|] s'] eqn:E.
  - apply cal_loop_ok in E as (m & Hc & Hle & Hexit & Hcalls & _ & Hm0 & HmS);
      [|lia|rewrite cal_fuel_Z; reflexivity].
    assert (Hm : m <> O).
    { intros ->. rewrite (Hm0 eq_refl) in Hexit. destruct Hexit as [H|H].
      - apply (Qle_not_lt _ _ H). setoid_replace (calStart - calStart) with 0 by ring.
        reflexivity.
      - simpl in Hc. lia. }
    destruct (HmS Hm) as (_ & He & Hall).
    assert (Hcm : Z.to_nat c = m) by (rewrite Hc; simpl; lia).
    rewrite Hcm. repeat split; try lia; assumption.
  - eapply cal_loop_err. exact E.
Qed.

(** C9 (counterexample): one invocation that already takes 6 time units
    ends the calibration with [calCount = 1] and [calDuration = 6]; the code
    then keeps [batchSize = 1], where [ceil(15 * 1 / 6)] is 3. *)
Lemma batch_size_single_call :
  fst (cal_loop clock_step6 never_raises cal_fuel (InNumber 1) 0 0 0 {| reads := 1; calls := [] |})
    = Ok (6, 1%Z) /\
  batch_size 1 (6 - 0) = 1%Z /\ spec_batch_size 1 (6 - 0) = 3%Z.
Proof. vm_compute. repeat split. Qed.

(** C9 (amended): the batch size is 1 when the calibration made at most one
    invocation; otherwise it is [ceil(15 * calCount / calDuration)], with
    [0.001] in place of a zero [calDuration]; for a non-negative
    [calDuration] (a clock that does not go back) it is at least 1. *)
Theorem batch_size_policy (calCount : Z) (calDuration : Q) :
  0 <= calDuration ->
  ((calCount <= 1)%Z -> batch_size calCount calDuration = 1%Z) /\
  ((1 < calCount)%Z -> ~ calDuration == 0 ->
     batch_size calCount calDuration = Qceiling ((15 * inject_Z calCount) / calDuration)) /\
  ((1 < calCount)%Z -> calDuration == 0 ->
     batch_size calCount calDuration = Qceiling ((15 * inject_Z calCount) / (1 # 1000))) /\
  (1 <= batch_size calCount calDuration)%Z.
Proof.
  intros Hd. unfold batch_size. repeat split.
  - intros H. destruct (Z.ltb_spec 1 calCount); [lia|reflexivity].
  - intros H Hnz. destruct (Z.ltb_spec 1 calCount); [|lia].
    destruct (Qeq_bool calDuration 0) eqn:Eq; [|reflexivity].
    apply Qeq_bool_iff in Eq. contradiction.
  - intros H Hz. destruct (Z.ltb_spec 1 calCount); [|lia].
    apply Qeq_bool_iff in Hz. rewrite Hz. reflexivity.
  - destruct (Z.ltb_spec 1 calCount) as [H|H]; [|lia].
    assert (Hpos : 0 < (15 * inject_Z calCount) /
                       (if Qeq_bool calDuration 0 then 1 # 1000 else calDuration)).
    { assert (Hc : 0 < 15 * inject_Z calCount).
      { apply (Qmult_lt_0_compat 15); [reflexivity|].
        change 0 with (inject_Z 0). rewrite <- Zlt_Qlt. lia. }
      destruct (Qeq_bool calDuration 0) eqn:Eq.
      - apply Qlt_shift_div_l; [reflexivity|]. rewrite Qmult_0_l. exact Hc.
      - apply Qlt_shift_div_l; [|rewrite Qmult_0_l; exact Hc].
        apply Qle_lteq in Hd as [Hd|Hd]; [exact Hd|].
        exfalso. apply Qeq_bool_neq in Eq. apply Eq. symmetry. exact Hd. }
    pose proof (Qle_ceiling ((15 * inject_Z calCount) /
                  (if Qeq_bool calDuration 0 then 1 # 1000 else calDuration))) as Hce.
    assert (Hz : 0 < inject_Z (Qceiling ((15 * inject_Z calCount) /
                  (if Qeq_bool calDuration 0 then 1 # 1000 else calDuration))))
      by (eapply Qlt_le_trans; [exact Hpos|exact Hce]).
    revert Hz. generalize (Qceiling ((15 * inject_Z calCount) /
                  (if Qeq_bool calDuration 0 then 1 # 1000 else calDuration))).
    intros c Hz. change 0 with (inject_Z 0) in Hz. rewrite <- Zlt_Qlt in Hz. lia.
Qed.

Lemma batch_size_policy_witness :
  0 <= 6 /\ (1 <= batch_size 2 6)%Z.
Proof.
  split; [discriminate|].
  apply (batch_size_policy 2 6). discriminate.
Defined.

Open Scope R_scope.

(** ** The tie-break as a chain of promotions *)

Lemma occam_step (a c : Model) (l : list Model) :
  (promotes a c /\ occam_scan a (c :: l) = occam_scan c l) \/
  (~ promotes a c /\ occam_scan a (c :: l) = occam_scan a l).
Proof.
  unfold promotes. simpl.
  destruct (Z_lt_dec (complexity c) (complexity a)) as [Hc|Hc].
  - destruct (Rlt_dec _ _) as [Hr|Hr].
    + left. auto.
    + right. split; [tauto|reflexivity].
  - right. split; [tauto|reflexivity].
Qed.

(** The scan from [a] over [l] follows the promotion path over all of [l]. *)
Lemma occam_scan_path (a : Model) (l : list Model) :
  promotion_path a l (occam_scan a l).
Proof.
  revert a. induction l as [|c l IH]; intros a; [constructor|].
  destruct (occam_step a c l) as [[Hp E]|[Hn E]]; rewrite E.
  - apply path_promote; [exact Hp|apply IH].
  - apply path_skip; [exact Hn|apply IH].
Qed.

(** The promotion path from [a] over [l] has a single end: the scan. *)
Lemma promotion_path_unique (a : Model) (l : list Model) (b : Model) :
  promotion_path a l b -> b = occam_scan a l.
Proof.
  induction 1 as [a|a c l b Hn _ IH|a c l b Hp _ IH].
  - reflexivity.
  - destruct (occam_step a c l) as [[Hp E]|[_ E]]; [contradiction|rewrite E; exact IH].
  - destruct (occam_step a c l) as [[_ E]|[Hn E]]; [rewrite E; exact IH|contradiction].
Qed.

(** ** Properties of concrete sequences *)

(** The three samples are valid inputs: distinct positive sizes and
    non-negative times, with a mean of 11 (standard regime). *)
Lemma samples_three_valid :
  Forall (fun d => (0 < n d)%Z /\ 0 <= time d) samples_three /\
  NoDup (map n samples_three) /\
  SS.mean (map time samples_three) = Ok 11 /\ ~ 11 < 1 / 10000.
Proof.
  split; [repeat constructor; simpl; lra|].
  split; [|split; [exact mean_three|lra]].
  repeat constructor; simpl; intuition discriminate.
Qed.

(** C2 (counterexample): on the sizes [1, 2, 4] with times [14, 0, 19]
    (valid samples, standard regime), the code scans the models in ascending
    RMSE order and climbs from the quadratic model to the constant one; the
    scan the spec describes, in ascending rank order from the lowest-RMSE
    model, picks the linear model instead. *)
Lemma rank_order_scan_differs :
  SS.mean (map time samples_three) = Ok 11 /\
  (exists r, determineComplexity samples_three = Ok r /\ bestFit r = label_constant) /\
  option_map mtype (spec_rank_order_best samples_three 11) = Some label_linear.
Proof.
  destruct samples_three_valid as (_ & _ & Hm & _).
  split; [exact Hm|split; [|exact spec_rank_order_three]].
  destruct determineComplexity_three as [res H]. eexists. split; [exact H|reflexivity].
Qed.

(** C2 (amended): in the standard regime the scan visits the models in
    ascending RMSE order (the stable sort of the catalog), starting from the
    lowest-RMSE model; each visited candidate replaces the current best
    exactly when it is strictly simpler and its RMSE exceeds the current
    best's by a relative margin below 0.15, the margin being taken against
    [best.rmse || 1e-9]; otherwise the current best is kept. The best fit
    is the end of this path. *)
Theorem occam_scan_in_rmse_order (dataPoints : list DataPoint) (meanTime : R)
      (r : Classification) :
  SS.mean (map time dataPoints) = Ok meanTime ->
  ~ meanTime < 1 / 10000 ->
  determineComplexity dataPoints = Ok r ->
  exists m0 rest b,
    sort_by rmse (models_of dataPoints meanTime) = m0 :: rest /\
    Sorted (fun a c => rmse a <= rmse c) (m0 :: rest) /\
    Permutation (m0 :: rest) (models_of dataPoints meanTime) /\
    promotion_path m0 rest b /\
    mtype b = bestFit r.
Proof.
  intros Hm Hstd Hr.
  destruct (sorted_models_cons dataPoints meanTime) as (m0 & rest & Hs).
  rewrite (determineComplexity_unfold _ _ _ _ Hm Hs) in Hr. cbv zeta in Hr.
  destruct (Rlt_dec meanTime (1 / 10000)); [contradiction|].
  injection Hr as <-.
  exists m0, rest, (occam_scan m0 rest).
  split; [exact Hs|]. split; [rewrite <- Hs; apply sort_by_sorted|].
  split; [rewrite <- Hs; apply sort_by_perm|].
  split; [apply occam_scan_path|reflexivity].
Qed.

(** C2 witness: the three samples of sizes [1, 2, 4] and times
    [14, 0, 19] (mean 11, standard regime), where the scan promotes. *)
Lemma occam_scan_in_rmse_order_witness :
  SS.mean (map time samples_three) = Ok 11 /\ ~ 11 < 1 / 10000 /\
  exists r, determineComplexity samples_three = Ok r /\
  exists m0 rest b,
    sort_by rmse (models_of samples_three 11) = m0 :: rest /\
    Sorted (fun a c => rmse a <= rmse c) (m0 :: rest) /\
    Permutation (m0 :: rest) (models_of samples_three 11) /\
    promotion_path m0 rest b /\
    mtype b = bestFit r.
Proof.
  destruct determineComplexity_three as [res Hr].
  split; [exact mean_three|split; [lra|]].
  eexists. split; [exact Hr|].
  apply (occam_scan_in_rmse_order samples_three 11 _ mean_three); [lra|exact Hr].
Defined.

(** C3 witness: two samples with mean 0. *)
Lemma ultra_fast_override_witness :
  SS.mean (map time samples_negative) = Ok 0 /\ 0 < 1 / 10000 /\
  exists r, determineComplexity samples_negative = Ok r /\
    bestFit r = (if Rlt_dec (rmse (log_model samples_negative))
                            (rmse (constant_model samples_negative 0))
                 then label_log else label_constant) /\
    confidence r = 95.
Proof.
  split; [exact mean_negative|split; [lra|]].
  apply (ultra_fast_override samples_negative 0); [exact mean_negative|lra].
Defined.

(** C4: on the sizes [1, 2, 4] with times [14, 0, 19] (valid samples,
    standard regime) the returned confidence is [-6], outside [[0, 100]]:
    the scan promotes the constant model, [secondBest] is then the
    lowest-RMSE (quadratic) model, and the separation
    [(secondBest.rmse - best.rmse) / secondBest.rmse] is negative, with no
    lower clamp. *)
Theorem confidence_negative_on_valid_samples :
  Forall (fun d => (0 < n d)%Z /\ 0 <= time d) samples_three /\
  NoDup (map n samples_three) /\
  exists r, determineComplexity samples_three = Ok r /\ confidence r = -6.
Proof.
  destruct samples_three_valid as (H1 & H2 & _).
  split; [exact H1|split; [exact H2|]].
  destruct determineComplexity_three as [res H]. eexists. split; [exact H|reflexivity].
Qed.

(** C5 witness: two samples. *)
Lemma results_five_sorted_witness :
  (2 <= List.length samples_two)%nat /\
  exists r, determineComplexity samples_two = Ok r /\
    List.length (results r) = 5%nat /\
    Sorted (fun a b => frmse a <= frmse b) (results r) /\
    Permutation (map ftype (results r)) labels.
Proof.
  split; [simpl; lia|].
  apply (results_five_sorted samples_two). simpl. lia.
Defined.

(** C6 (counterexample): times [-1, 1] at sizes [1, 2]. The code neither
    drops the negative sample (which would leave one sample, hence the
    degenerate result) nor clamps it to [0] (which gives the logarithmic
    model with confidence 70): it classifies the raw times, whose mean 0
    puts it in the ultra-fast regime (logarithmic, confidence 95). *)
Lemma negative_time_not_rejected :
  determineComplexity samples_negative <> spec_drop_invalid samples_negative /\
  determineComplexity samples_negative <> spec_clamp_invalid samples_negative.
Proof.
  destruct determineComplexity_negative as [res H].
  destruct spec_clamp_negative as [res' H'].
  rewrite H, spec_drop_negative, H'.
  split; intros E;
    apply (f_equal (fun x => match x with Ok c => confidence c | Err => 0 end)) in E;
    simpl in E; lra.
Qed.

(** C6 (amended): times are not validated: every non-empty sample sequence,
    negative times included, is classified into one of the five catalog
    models; the mean is taken over all the raw times and the five fits are
    those of the regressions on the raw samples. *)
Theorem raw_times_classified (dataPoints : list DataPoint) :
  dataPoints <> [] ->
  SS.mean (map time dataPoints) =
    Ok (SS.sum (map time dataPoints) / INR (List.length dataPoints)) /\
  exists r, determineComplexity dataPoints = Ok r /\ In (bestFit r) labels /\
    Permutation (results r)
      (map to_fit (models_of dataPoints
         (SS.sum (map time dataPoints) / INR (List.length dataPoints)))).
Proof.
  intros Hne.
  assert (Hm : SS.mean (map time dataPoints) =
                 Ok (SS.sum (map time dataPoints) / INR (List.length dataPoints))).
  { destruct dataPoints as [|d ds]; [congruence|]. simpl. rewrite length_map. reflexivity. }
  split; [exact Hm|].
  destruct (sorted_models_cons dataPoints
              (SS.sum (map time dataPoints) / INR (List.length dataPoints))) as (m0 & rest & Hs).
  destruct (determineComplexity_best_in _ Hne) as (mt & r & Hm' & Hr & b & Hb & Hbt).
  rewrite Hm in Hm'. injection Hm' as <-.
  exists r. split; [exact Hr|]. split.
  - rewrite <- Hbt, <- (models_of_labels dataPoints
                          (SS.sum (map time dataPoints) / INR (List.length dataPoints))).
    apply in_map. exact Hb.
  - rewrite (determineComplexity_unfold _ _ _ _ Hm Hs) in Hr. cbv zeta in Hr.
    assert (Hres : results r = sort_by frmse (map to_fit (m0 :: rest))).
    { destruct (Rlt_dec _ (1 / 10000)); injection Hr as <-; reflexivity. }
    rewrite Hres, (sort_by_perm frmse), <- Hs.
    apply Permutation_map, sort_by_perm.
Qed.

Lemma raw_times_classified_witness :
  samples_negative <> [] /\
  SS.mean (map time samples_negative) =
    Ok (SS.sum (map time samples_negative) / INR (List.length samples_negative)) /\
  exists r, determineComplexity samples_negative = Ok r /\ In (bestFit r) labels /\
    Permutation (results r)
      (map to_fit (models_of samples_negative
         (SS.sum (map time samples_negative) / INR (List.length samples_negative)))).
Proof.
  split; [discriminate|].
  apply (raw_times_classified samples_negative). discriminate.
Defined.

(** C10 witness: the sizes [1, 2, 4] with times [14, 0, 19] (mean 11,
    standard regime), where the quadratic model has the minimum RMSE and
    the scan promotes down to the constant model. *)
Lemma occam_never_increases_rank_witness :
  exists r, determineComplexity samples_three = Ok r /\
  exists b, In b (models_of samples_three 11) /\ mtype b = bestFit r /\
    (complexity b <=
       complexity {| mtype := label_quadratic; rmse := sqrt (625 / 14); complexity := 5 |})%Z.
Proof.
  destruct determineComplexity_three as [res Hr].
  pose proof three_order as (hQG & hGL & hLK & hKC & hQ).
  eexists. split; [exact Hr|].
  apply (occam_never_increases_rank samples_three 11).
  - exact mean_three.
  - lra.
  - exact Hr.
  - rewrite models_of_three. right; right; right; right; left. reflexivity.
  - intros m' Hm'. rewrite models_of_three in Hm'. simpl in Hm'.
    intuition (subst; simpl; lra).
Defined.

(** ** Further properties of the classifier *)

Open Scope R_scope.


Lemma models_rmse_nonneg (dataPoints : list DataPoint) (meanTime : R) :
  forall m, In m (models_of dataPoints meanTime) -> 0 <= rmse m.
Proof.
  intros m Hm. simpl in Hm.
  destruct Hm as [<-|[<-|[<-|[<-|[<-|[]]]]]]; cbn [rmse];
    unfold getRegressionRMSE, calculateRMSE; apply sqrt_pos.
Qed.

Lemma js_round_le_100 (x : R) : x <= 100 -> js_round x <= 100.
Proof.
  intros Hx. unfold js_round.
  destruct (base_Int_part (x + / 2)) as [H1 _].
  assert (Hz : (Int_part (x + / 2) < 101)%Z) by (apply lt_IZR; lra).
  assert (Hz' : (Int_part (x + / 2) <= 100)%Z) by lia.
  apply IZR_le in Hz'. exact Hz'.
Qed.

Lemma valid_sizes_nonempty (dataPoints : list DataPoint) :
  valid_sizes dataPoints -> dataPoints <> [].
Proof. intros [Hl _] ->. simpl in Hl. lia. Qed.



Lemma standard_confidence_le_100 (models : list Model) (meanTime : R) (b : Model) :
  0 <= rmse b -> standard_confidence models meanTime b <= 100.
Proof.
  intros Hb. unfold standard_confidence. cbv zeta.
  assert (Hsig : 0 < (if Rlt_dec 0 meanTime then meanTime else 1)).
  { destruct (Rlt_dec 0 meanTime); lra. }
  assert (Hfq : Rmax 0 (1 - rmse b / (if Rlt_dec 0 meanTime then meanTime else 1) * 2) <= 1).
  { apply Rmax_lub; [lra|].
    assert (0 <= rmse b / (if Rlt_dec 0 meanTime then meanTime else 1)).
    { unfold Rdiv. apply Rmult_le_pos; [exact Hb|apply Rlt_le, Rinv_0_lt_compat, Hsig]. }
    lra. }
  assert (Hsep : forall o : option Model,
    match o with
    | Some sb => Rmin 1 ((rmse sb - rmse b) / js_or (rmse sb) 1)
    | None => 0
    end <= 1).
  { intros [sb|]; [apply Rmin_l|lra]. }
  match goal with |- (?f * _ + ?g * _) * _ <= _ =>
    change g with ((fun o : option Model => match o with
    | Some sb => Rmin 1 ((rmse sb - rmse b) / js_or (rmse sb) 1)
    | None => 0 end) (match sort_by rmse models with
    | s0 :: s1 :: _ => if same_model s0 b then Some s1 else Some s0
    | [s0] => if same_model s0 b then None else Some s0
    | [] => None end)) end.
  generalize (Hsep (match sort_by rmse models with
    | s0 :: s1 :: _ => if same_model s0 b then Some s1 else Some s0
    | [s0] => if same_model s0 b then None else Some s0
    | [] => None end)).
  cbv beta. lra.
Qed.

Lemma samples_three_valid_sizes : valid_sizes samples_three.
Proof.
  unfold samples_three. split; [simpl; lia|split; [repeat constructor; simpl; lia|]].
  simpl. repeat constructor; simpl; intuition discriminate.
Qed.

(** X4: on at least two samples of distinct positive sizes, the reported
    confidence is at most 100. *)
Theorem confidence_at_most_100 (dataPoints : list DataPoint) :
  valid_sizes dataPoints ->
  exists r, determineComplexity dataPoints = Ok r /\ confidence r <= 100.
Proof.
  intros Hv. pose proof (valid_sizes_nonempty _ Hv) as Hne.
  destruct (determineComplexity_cases _ Hne) as (mt & m0 & rest & Hm & Hs).
  rewrite (determineComplexity_unfold _ _ _ _ Hm Hs). cbv zeta.
  destruct (Rlt_dec mt (1 / 10000)); eexists; (split; [reflexivity|]); cbn [confidence].
  - rewrite (js_round_eq 95 95) by lra. lra.
  - apply js_round_le_100, standard_confidence_le_100.
    apply (models_rmse_nonneg dataPoints mt).
    apply (Permutation_in _ (sort_by_perm rmse _)). rewrite Hs. apply occam_scan_in.
Qed.

Lemma confidence_at_most_100_witness :
  valid_sizes samples_three /\
  exists r, determineComplexity samples_three = Ok r /\ confidence r <= 100.
Proof.
  split; [exact samples_three_valid_sizes|].
  exact (confidence_at_most_100 samples_three samples_three_valid_sizes).
Defined.


(** ** Further properties of the benchmarker *)

Open Scope Q_scope.

Section Effects.
Variable now_at : nat -> Q.
Variable raises_at : nat -> Input -> bool.
Variable P : Input -> Prop.

Lemma logs_only_ret {A} (a : A) : logs_only P (ret a).
Proof. intros s r s' H. injection H as _ <-. exists []. split; [reflexivity|constructor]. Qed.

Lemma logs_only_lift {A} (r0 : result A) : logs_only P (lift r0).
Proof. intros s r s' H. injection H as _ <-. exists []. split; [reflexivity|constructor]. Qed.

Lemma logs_only_now : logs_only P (now now_at).
Proof. intros s r s' H. injection H as _ <-. exists []. split; [reflexivity|constructor]. Qed.

Lemma logs_only_call_alg (x : Input) : P x -> logs_only P (call_alg raises_at x).
Proof.
  intros Hx s r s' H. unfold call_alg in H.
  destruct (raises_at _ _); injection H as _ <-; exists [x]; (split; [reflexivity|auto]).
Qed.

Lemma logs_only_bind {A B} (m : M A) (k : A -> M B) :
  logs_only P m -> (forall a, logs_only P (k a)) -> logs_only P (bind m k).
Proof.
  intros Hm Hk s r s' H. unfold bind in H.
  destruct (m s) as [[a|] s1] eqn:E.
  - destruct (Hm _ _ _ E) as (n1 & H1 & F1). destruct (Hk a _ _ _ H) as (n2 & H2 & F2).
    exists (n2 ++ n1). rewrite H2, H1, app_assoc. split; [reflexivity|apply Forall_app; auto].
  - injection H as _ <-. exact (Hm _ _ _ E).
Qed.

Lemma logs_only_bind_lift {A B} (r0 : result A) (k : A -> M B) :
  (forall a, r0 = Ok a -> logs_only P (k a)) -> logs_only P (bind (lift r0) k).
Proof.
  intros Hk s r s' H. unfold bind, lift in H. destruct r0 as [a|].
  - exact (Hk a eq_refl _ _ _ H).
  - injection H as _ <-. exists []. split; [reflexivity|constructor].
Qed.

Lemma logs_only_repeat_call (k : nat) (x : Input) : P x -> logs_only P (repeat_call raises_at k x).
Proof.
  intros Hx. induction k as [|k IH]; simpl; [apply logs_only_ret|].
  apply logs_only_bind; [apply logs_only_call_alg, Hx|intros; exact IH].
Qed.

Lemma logs_only_cal_loop (fuel : nat) (x : Input) :
  P x -> forall calStart calEnd calCount,
  logs_only P (cal_loop now_at raises_at fuel x calStart calEnd calCount).
Proof.
  intros Hx. induction fuel as [|fuel IH]; intros calStart calEnd calCount; simpl;
    [apply logs_only_ret|].
  destruct (_ && _); [|apply logs_only_ret].
  apply logs_only_bind; [apply logs_only_call_alg, Hx|intros _].
  apply logs_only_bind; [apply logs_only_now|intros; apply IH].
Qed.

Lemma logs_only_measure (iterations : nat) (inputMode : InputMode) (k b : Z) :
  (forall x, input_for inputMode k = Ok x -> P x) ->
  logs_only P (measure now_at raises_at iterations inputMode k b).
Proof.
  intros Hx. induction iterations as [|it IH]; simpl; [apply logs_only_ret|].
  apply logs_only_bind_lift. intros x Ex.
  apply logs_only_bind; [apply logs_only_now|intros].
  apply logs_only_bind; [apply logs_only_repeat_call, Hx, Ex|intros].
  apply logs_only_bind; [apply logs_only_now|intros].
  apply logs_only_bind; [exact IH|intros; apply logs_only_ret].
Qed.

Lemma logs_only_measure_size (iterations : nat) (inputMode : InputMode) (k : Z) :
  (forall x, input_for inputMode k = Ok x -> P x) ->
  logs_only P (measure_size now_at raises_at iterations inputMode k).
Proof.
  intros Hx. unfold measure_size.
  apply logs_only_bind_lift. intros x Ex.
  apply logs_only_bind; [apply logs_only_now|intros].
  apply logs_only_bind; [apply logs_only_cal_loop, Hx, Ex|intros].
  apply logs_only_bind; [apply logs_only_measure, Hx|intros].
  apply logs_only_bind; [apply logs_only_lift|intros; apply logs_only_ret].
Qed.

Lemma logs_only_mapM {A B} (f : A -> M B) (l : list A) :
  (forall x, In x l -> logs_only P (f x)) -> logs_only P (mapM f l).
Proof.
  induction l as [|x l IH]; intros Hf; simpl; [apply logs_only_ret|].
  apply logs_only_bind; [apply Hf; left; reflexivity|intros].
  apply logs_only_bind; [apply IH; intros; apply Hf; right; assumption|intros; apply logs_only_ret].
Qed.

Lemma logs_only_warmup (inputMode : InputMode) (inputSizes : list Z) :
  (forall k x, In k inputSizes -> input_for inputMode k = Ok x -> P x) ->
  logs_only P (warmup raises_at inputMode inputSizes).
Proof.
  intros H. destruct inputSizes as [|k ks]; unfold warmup; [apply logs_only_ret|].
  apply logs_only_bind_lift. intros x Ex.
  apply logs_only_repeat_call, (H k); [left; reflexivity|exact Ex].
Qed.

End Effects.

(** X6: every invocation of the algorithm that [runAnalysis] makes
    (warmup, calibration or measurement) is on the input built for one of
    the given sizes in the given mode, whether the run ends normally or
    throws. *)
Theorem runAnalysis_calls_only_on_sizes (now_at : nat -> Q) (raises_at : nat -> Input -> bool)
      (inputSizes : list Z) (iterations : nat) (inputMode : InputMode) (s s' : St)
      (r : result (list Sample)) :
  runAnalysis now_at raises_at inputSizes iterations inputMode s = (r, s') ->
  exists new, calls s' = new ++ calls s /\
    Forall (fun x => exists k, In k inputSizes /\ input_for inputMode k = Ok x) new.
Proof.
  apply (logs_only_bind (fun x => exists k, In k inputSizes /\ input_for inputMode k = Ok x)).
  - apply logs_only_warmup. intros k x Hk Ex. exists k. auto.
  - intros _. apply logs_only_mapM. intros k Hk. apply logs_only_measure_size.
    intros x Ex. exists k. auto.
Qed.

Lemma runAnalysis_calls_only_on_sizes_witness :
  exists r s',
    runAnalysis clock_step6 never_raises [2%Z; 3%Z] 1 ModeArray {| reads := 0; calls := [] |}
      = (r, s') /\
    exists new, calls s' = new ++ calls {| reads := 0; calls := [] |} /\
      Forall (fun x => exists k, In k [2%Z; 3%Z] /\ input_for ModeArray k = Ok x) new.
Proof.
  do 2 eexists. split; [vm_compute; reflexivity|].
  eapply (runAnalysis_calls_only_on_sizes clock_step6 never_raises [2%Z; 3%Z] 1 ModeArray).
  vm_compute. reflexivity.
Defined.


Section Errors.
Variable now_at : nat -> Q.
Variable raises_at : nat -> Input -> bool.
Variable Q0 : St -> Prop.
Hypothesis Q0_raised : forall s, last_call_raised raises_at s -> Q0 s.

Lemma errs_only_ret {A} (a : A) : errs_only Q0 (ret a).
Proof. intros s s' H. discriminate H. Qed.

Lemma errs_only_now : errs_only Q0 (now now_at).
Proof. intros s s' H. discriminate H. Qed.

Lemma errs_only_call_alg (x : Input) : errs_only Q0 (call_alg raises_at x).
Proof.
  intros s s' H. unfold call_alg in H.
  destruct (raises_at _ _) eqn:Hr; [|discriminate H].
  injection H as <-. apply Q0_raised. exists x, (calls s). split; [reflexivity|exact Hr].
Qed.

Lemma errs_only_bind {A B} (m : M A) (k : A -> M B) :
  errs_only Q0 m -> (forall a, errs_only Q0 (k a)) -> errs_only Q0 (bind m k).
Proof.
  intros Hm Hk s s' H. unfold bind in H.
  destruct (m s) as [[a|] s1] eqn:E; [exact (Hk a _ _ H)|injection H as <-; exact (Hm _ _ E)].
Qed.

Lemma errs_only_bind_lift {A B} (r0 : result A) (k : A -> M B) :
  (r0 = Err -> forall s, Q0 s) -> (forall a, errs_only Q0 (k a)) -> errs_only Q0 (bind (lift r0) k).
Proof.
  intros He Hk s s' H. unfold bind, lift in H. destruct r0 as [a|].
  - exact (Hk a _ _ H).
  - injection H as <-. apply He. reflexivity.
Qed.

Lemma errs_only_repeat_call (k : nat) (x : Input) : errs_only Q0 (repeat_call raises_at k x).
Proof.
  induction k as [|k IH]; simpl; [apply errs_only_ret|].
  apply errs_only_bind; [apply errs_only_call_alg|intros; exact IH].
Qed.

Lemma errs_only_cal_loop (fuel : nat) (x : Input) :
  forall calStart calEnd calCount,
  errs_only Q0 (cal_loop now_at raises_at fuel x calStart calEnd calCount).
Proof.
  induction fuel as [|fuel IH]; intros calStart calEnd calCount; simpl; [apply errs_only_ret|].
  destruct (_ && _); [|apply errs_only_ret].
  apply errs_only_bind; [apply errs_only_call_alg|intros _].
  apply errs_only_bind; [apply errs_only_now|intros; apply IH].
Qed.

Lemma errs_only_measure (iterations : nat) (inputMode : InputMode) (k b : Z) :
  (input_for inputMode k = Err -> forall s, Q0 s) ->
  errs_only Q0 (measure now_at raises_at iterations inputMode k b).
Proof.
  intros He. induction iterations as [|it IH]; simpl; [apply errs_only_ret|].
  apply errs_only_bind_lift; [exact He|intros].
  apply errs_only_bind; [apply errs_only_now|intros].
  apply errs_only_bind; [apply errs_only_repeat_call|intros].
  apply errs_only_bind; [apply errs_only_now|intros].
  apply errs_only_bind; [exact IH|intros; apply errs_only_ret].
Qed.

Lemma errs_only_mapM {A B} (f : A -> M B) (l : list A) :
  (forall x, In x l -> errs_only Q0 (f x)) -> errs_only Q0 (mapM f l).
Proof.
  induction l as [|x l IH]; intros Hf; simpl; [apply errs_only_ret|].
  apply errs_only_bind; [apply Hf; left; reflexivity|intros].
  apply errs_only_bind; [apply IH; intros; apply Hf; right; assumption|intros; apply errs_only_ret].
Qed.

Lemma errs_only_weaken (Q' : St -> Prop) {A} (m : M A) :
  (forall s, Q0 s -> Q' s) -> errs_only Q0 m -> errs_only Q' m.
Proof. intros HQ Hm s s' H. apply HQ. exact (Hm _ _ H). Qed.

End Errors.

Lemma input_for_err (inputMode : InputMode) (k : Z) :
  input_for inputMode k = Err -> inputMode = ModeArray /\ (max_array_length < k)%Z.
Proof.
  destruct inputMode; simpl; intros H; [|discriminate H].
  unfold generateInputArray in H. destruct (Z.ltb_spec max_array_length k); [auto|discriminate H].
Qed.

Lemma measure_length (now_at : nat -> Q) (raises_at : nat -> Input -> bool)
      (iterations : nat) (inputMode : InputMode) (k b : Z) :
  forall s ts s', measure now_at raises_at iterations inputMode k b s = (Ok ts, s') ->
  List.length ts = iterations.
Proof.
  induction iterations as [|it IH]; intros s ts s' H; simpl in H.
  - injection H as <- _. reflexivity.
  - unfold bind at 1, lift at 1 in H. destruct (input_for inputMode k) as [x|]; [|discriminate].
    unfold bind at 1 in H. simpl in H. unfold bind at 1 in H.
    destruct (repeat_call _ _ _ _) as [[u|] s1]; [|discriminate].
    unfold bind at 1 in H. simpl in H. unfold bind in H.
    destruct (measure _ _ _ _ _ _ _) as [[ts1|] s2] eqn:E; [|discriminate].
    injection H as <- _. simpl. f_equal. exact (IH _ _ _ E).
Qed.

Lemma errs_only_measure_size (now_at : nat -> Q) (raises_at : nat -> Input -> bool)
      (iterations : nat) (inputMode : InputMode) (k : Z) :
  errs_only (fun s' => iterations = O \/ last_call_raised raises_at s' \/
                       input_for inputMode k = Err)
    (measure_size now_at raises_at iterations inputMode k).
Proof.
  set (Q1 := fun s' => iterations = O \/ last_call_raised raises_at s' \/
                       input_for inputMode k = Err).
  assert (HQ : forall s, last_call_raised raises_at s -> Q1 s) by (intros; right; left; assumption).
  assert (HE : input_for inputMode k = Err -> forall s, Q1 s) by (intros; right; right; assumption).
  assert (HO : iterations = O -> forall s, Q1 s) by (intros; left; assumption).
  clearbody Q1. intros s s' H. unfold measure_size in H.
  unfold bind at 1, lift at 1 in H.
  destruct (input_for inputMode k) as [x|] eqn:Ex; [|injection H as <-; apply HE; reflexivity].
  unfold bind at 1 in H. simpl in H. unfold bind at 1 in H.
  destruct (cal_loop _ _ _ _ _ _ _ _) as [[cal|] s1] eqn:E1;
    [|injection H as <-; exact (errs_only_cal_loop now_at raises_at Q1 HQ _ _ _ _ _ _ _ E1)].
  unfold bind at 1 in H.
  destruct (measure _ _ _ _ _ _ _) as [[ts|] s2] eqn:E2;
    [|injection H as <-; exact (errs_only_measure now_at raises_at Q1 HQ iterations inputMode k _
      (fun Hx => ltac:(exfalso; congruence)) _ _ E2)].
  unfold bind, lift, ret in H. destruct (Qmean ts) eqn:E3; [discriminate H|].
  apply HO. apply measure_length in E2. destruct ts; [|discriminate E3]. rewrite <- E2. reflexivity.
Qed.

(** X7: [runAnalysis] throws only when [iterations = 0] ([ss.mean] on
    an empty array), when the algorithm threw, and then the last invocation
    made is the one that threw, or when, in array mode, one of the sizes
    exceeds [2^32 - 1] ([generateInputArray] throws a [RangeError]). *)
Theorem runAnalysis_error_cause (now_at : nat -> Q) (raises_at : nat -> Input -> bool)
      (inputSizes : list Z) (iterations : nat) (inputMode : InputMode) (s s' : St) :
  runAnalysis now_at raises_at inputSizes iterations inputMode s = (Err, s') ->
  iterations = O \/ last_call_raised raises_at s' \/
  (inputMode = ModeArray /\ exists k, In k inputSizes /\ (max_array_length < k)%Z).
Proof.
  set (Q1 := fun s' => iterations = O \/ last_call_raised raises_at s' \/
    (inputMode = ModeArray /\ exists k, In k inputSizes /\ (max_array_length < k)%Z)).
  assert (HQ : forall s, last_call_raised raises_at s -> Q1 s) by (intros; right; left; assumption).
  assert (HE : forall k, In k inputSizes -> input_for inputMode k = Err -> forall s, Q1 s).
  { intros k Hk Ek s0. apply input_for_err in Ek as [-> Hlt].
    right; right. split; [reflexivity|exists k; auto]. }
  apply (errs_only_bind Q1).
  - destruct inputSizes as [|k0 ks]; [apply errs_only_ret|].
    apply (errs_only_bind_lift Q1); [apply (HE k0); left; reflexivity|intros x].
    apply (errs_only_repeat_call raises_at Q1 HQ).
  - intros _. apply errs_only_mapM. intros k Hk.
    eapply errs_only_weaken; [|apply errs_only_measure_size].
    intros s0 [H0|[H0|H0]]; [left; exact H0|right; left; exact H0|exact (HE k Hk H0 s0)].
Qed.

Lemma runAnalysis_error_cause_witness :
  exists s',
    runAnalysis clock_step6 raises_first [2%Z] 1 ModeNumber {| reads := 0; calls := [] |}
      = (Err, s') /\
    (1%nat = O \/ last_call_raised raises_first s' \/
     (ModeNumber = ModeArray /\ exists k, In k [2%Z] /\ (max_array_length < k)%Z)).
Proof.
  eexists. split; [vm_compute; reflexivity|].
  apply (runAnalysis_error_cause clock_step6 raises_first [2%Z] 1 ModeNumber
           {| reads := 0; calls := [] |}).
  vm_compute. reflexivity.
Defined.


(** X8: with [iterations = 0] and at least one size, [runAnalysis]
    throws, also for an algorithm that never throws. *)
Theorem runAnalysis_zero_iterations (now_at : nat -> Q) (raises_at : nat -> Input -> bool)
      (inputSizes : list Z) (inputMode : InputMode) (s : St) :
  (forall k x, raises_at k x = false) -> inputSizes <> [] ->
  exists s', runAnalysis now_at raises_at inputSizes O inputMode s = (Err, s').
Proof.
  intros Hnr Hne. destruct inputSizes as [|k ks]; [congruence|].
  unfold runAnalysis, warmup, bind at 1 2, lift at 1.
  destruct (input_for inputMode k) as [x|] eqn:Ex; [|eexists; reflexivity].
  destruct (repeat_call_ok raises_at Hnr 100 x s) as [s1 E1]. rewrite E1.
  cbn [mapM]. unfold bind at 1, measure_size, bind at 1, lift at 1. rewrite Ex.
  unfold bind at 1, now. cbn beta iota.
  destruct (cal_loop_total now_at raises_at Hnr cal_fuel x
     (now_at (reads s1)) (now_at (reads s1)) 0 {| reads := S (reads s1); calls := calls s1 |})
    as (cal & s2 & E2).
  unfold bind at 1. rewrite E2. eexists. reflexivity.
Qed.

Lemma runAnalysis_zero_iterations_witness :
  (forall k x, never_raises k x = false) /\ [2%Z] <> [] /\
  exists s',
    runAnalysis clock_step6 never_raises [2%Z] O ModeArray {| reads := 0; calls := [] |}
      = (Err, s').
Proof.
  split; [reflexivity|split; [discriminate|]].
  apply runAnalysis_zero_iterations; [reflexivity|discriminate].
Defined.


Lemma repeat_call_reads (raises_at : nat -> Input -> bool) (k : nat) (x : Input) :
  forall s r s', repeat_call raises_at k x s = (r, s') -> reads s' = reads s.
Proof.
  induction k as [|k IH]; intros s r s' H; simpl in H.
  - injection H as _ <-. reflexivity.
  - unfold bind, call_alg in H.
    destruct (raises_at _ _); [injection H as _ <-; reflexivity|].
    apply IH in H. exact H.
Qed.

Lemma batch_size_pos (calCount : Z) (calDuration : Q) :
  0 <= calDuration -> (0 < batch_size calCount calDuration)%Z.
Proof.
  intros Hd. unfold batch_size.
  destruct (Z.ltb_spec 1 calCount) as [Hc|Hc]; [|lia].
  set (d := if Qeq_bool calDuration 0 then 1 # 1000 else calDuration).
  assert (Hd' : 0 < d).
  { unfold d. destruct (Qeq_bool calDuration 0) eqn:E; [reflexivity|].
    apply Qeq_bool_neq in E. apply Qle_lteq in Hd as [Hd|Hd]; [exact Hd|].
    exfalso. apply E. symmetry. exact Hd. }
  assert (Hq : 0 < 15 * inject_Z calCount / d).
  { apply Qlt_shift_div_l; [exact Hd'|].
    rewrite Qmult_0_l. apply Qmult_lt_0_compat; [reflexivity|].
    change 0 with (inject_Z 0). rewrite <- Zlt_Qlt. lia. }
  assert (H := Qle_ceiling (15 * inject_Z calCount / d)).
  assert (0 < inject_Z (Qceiling (15 * inject_Z calCount / d))) as H2
    by (apply Qlt_le_trans with (15 * inject_Z calCount / d); assumption).
  change 0 with (inject_Z 0) in H2. rewrite <- Zlt_Qlt in H2. exact H2.
Qed.

Lemma clock_step6_monotone :
  forall i j, (i <= j)%nat -> clock_step6 i <= clock_step6 j.
Proof.
  intros i j H. unfold clock_step6.
  apply Qmult_le_compat_r; [rewrite <- Zle_Qle; lia|discriminate].
Qed.

Section Clock.
Variable now_at : nat -> Q.
Variable raises_at : nat -> Input -> bool.
Hypothesis clock_monotone : forall i j, (i <= j)%nat -> now_at i <= now_at j.

Lemma cal_loop_after_start (fuel : nat) (x : Input) :
  forall calStart calEnd calCount s e c s',
  (forall j, (reads s <= j)%nat -> calStart <= now_at j) -> calStart <= calEnd ->
  cal_loop now_at raises_at fuel x calStart calEnd calCount s = (Ok (e, c), s') ->
  calStart <= e.
Proof.
  induction fuel as [|fuel IH]; intros calStart calEnd calCount s e c s' Hj Hce H; simpl in H.
  - injection H as <- _ _. exact Hce.
  - destruct (_ && _).
    + unfold bind, call_alg in H.
      destruct (raises_at _ _); [discriminate H|].
      unfold now in H. cbn [reads] in H.
      eapply IH; [|apply (Hj (reads s)); lia|exact H].
      intros j Hj'. apply Hj. cbn [reads] in Hj'. lia.
    + injection H as <- _ _. exact Hce.
Qed.

Lemma measure_nonneg (iterations : nat) (inputMode : InputMode) (k b : Z) :
  (0 < b)%Z ->
  forall s ts s', measure now_at raises_at iterations inputMode k b s = (Ok ts, s') ->
  Forall (fun t => 0 <= t) ts.
Proof.
  intros Hb. induction iterations as [|it IH]; intros s ts s' H; simpl in H.
  - injection H as <- _. constructor.
  - unfold lift at 1 in H. cbn beta iota in H.
    destruct (input_for inputMode k) as [x|]; cbn beta iota in H; [|discriminate].
    unfold bind, now in H. cbn beta iota in H.
    destruct (repeat_call raises_at (Z.to_nat b) x _) as [[u|] s1] eqn:E1; [|discriminate].
    apply repeat_call_reads in E1. cbn [reads] in E1. cbn beta iota in H.
    destruct (measure _ _ _ _ _ _ _) as [[ts1|] s2] eqn:E2; [|discriminate].
    injection H as <- _. constructor; [|exact (IH _ _ _ E2)].
    apply Qle_shift_div_l; [change 0 with (inject_Z 0); rewrite <- Zlt_Qlt; exact Hb|].
    rewrite Qmult_0_l. apply (proj1 (Qle_minus_iff _ _)), clock_monotone. lia.
Qed.

Lemma Qsum_nonneg (ts : list Q) : Forall (fun t => 0 <= t) ts -> 0 <= Qsum ts.
Proof.
  induction 1 as [|t ts Ht _ IH]; [apply Qle_refl|].
  unfold Qsum; simpl. fold (Qsum ts). change 0 with (0 + 0). apply Qplus_le_compat; assumption.
Qed.

Lemma measure_size_nonneg (iterations : nat) (inputMode : InputMode) (k : Z) :
  forall s smp s', measure_size now_at raises_at iterations inputMode k s = (Ok smp, s') ->
  0 <= s_time smp.
Proof.
  intros s smp s' H. unfold measure_size, bind at 1, lift at 1 in H. cbn beta iota in H.
  destruct (input_for inputMode k) as [x|]; [|discriminate].
  unfold bind at 1, now at 1 in H. cbn beta iota in H.
  unfold bind at 1 in H.
  destruct (cal_loop _ _ _ _ _ _ _ _) as [[cal|] s1] eqn:E1; [|discriminate].
  unfold bind at 1 in H.
  destruct (measure _ _ _ _ _ _ _) as [[ts|] s2] eqn:E2; [|discriminate].
  unfold bind, lift, ret in H. destruct (Qmean ts) as [avg|] eqn:E3; [|discriminate].
  injection H as <- _. cbn [s_time].
  destruct cal as [e c]. cbn [fst snd] in E2.
  assert (He : now_at (reads s) <= e).
  { eapply cal_loop_after_start; [|apply Qle_refl|exact E1].
    intros j Hj. apply clock_monotone. cbn [reads] in Hj. lia. }
  apply measure_nonneg in E2; [|apply batch_size_pos, (proj1 (Qle_minus_iff _ _) He)].
  destruct ts as [|t ts]; [discriminate E3|]. unfold Qmean in E3. injection E3 as <-.
  apply Qle_shift_div_l; [reflexivity|]. rewrite Qmult_0_l. exact (Qsum_nonneg (t :: ts) E2).
Qed.

End Clock.

(** X9: with a clock that never goes backwards, every time that
    [runAnalysis] reports is non-negative. *)
Theorem runAnalysis_times_nonneg (now_at : nat -> Q) (raises_at : nat -> Input -> bool)
      (inputSizes : list Z) (iterations : nat) (inputMode : InputMode)
      (s s' : St) (samples : list Sample) :
  (forall i j, (i <= j)%nat -> now_at i <= now_at j) ->
  runAnalysis now_at raises_at inputSizes iterations inputMode s = (Ok samples, s') ->
  Forall (fun smp => 0 <= s_time smp) samples.
Proof.
  intros Hmono H. unfold runAnalysis, bind at 1 in H.
  destruct (warmup _ _ _ _) as [[u|] s1]; [|discriminate].
  assert (F := mapM_forall2 _ (fun _ smp => 0 <= s_time smp)
             (fun x s0 y s0' => measure_size_nonneg now_at raises_at Hmono iterations inputMode x s0 y s0')
             inputSizes _ _ _ H).
  clear H. induction F; constructor; assumption.
Qed.

Lemma runAnalysis_times_nonneg_witness :
  (forall i j, (i <= j)%nat -> clock_step6 i <= clock_step6 j) /\
  exists samples s',
    runAnalysis clock_step6 never_raises [2%Z; 3%Z] 1 ModeArray {| reads := 0; calls := [] |}
      = (Ok samples, s') /\
    Forall (fun smp => 0 <= s_time smp) samples.
Proof.
  split; [exact clock_step6_monotone|].
  do 2 eexists. split; [vm_compute; reflexivity|].
  eapply (runAnalysis_times_nonneg clock_step6 never_raises [2%Z; 3%Z] 1 ModeArray
           {| reads := 0; calls := [] |} _ _ clock_step6_monotone).
  vm_compute. reflexivity.
Defined.


Lemma repeat_call_calls (raises_at : nat -> Input -> bool) (Hnr : forall k x, raises_at k x = false)
      (k : nat) (x : Input) :
  forall s, repeat_call raises_at k x s =
            (Ok tt, {| reads := reads s; calls := repeat x k ++ calls s |}).
Proof.
  induction k as [|k IH]; intros s; simpl.
  - destruct s; reflexivity.
  - unfold bind at 1, call_alg. rewrite Hnr, IH. cbn [reads calls]. rewrite repeat_snoc. reflexivity.
Qed.

Lemma measure_batch1_calls (now_at : nat -> Q) (raises_at : nat -> Input -> bool)
      (Hnr : forall k x, raises_at k x = false) (inputMode : InputMode) (k : Z) (x : Input)
      (Hx : input_for inputMode k = Ok x) (iterations : nat) :
  forall s, exists ts,
    measure now_at raises_at iterations inputMode k 1 s =
    (Ok ts, {| reads := reads s + 2 * iterations; calls := repeat x iterations ++ calls s |}).
Proof.
  induction iterations as [|it IH]; intros s; cbn [measure].
  - exists []. destruct s; simpl. rewrite Nat.add_0_r. reflexivity.
  - unfold bind at 1, lift at 1. rewrite Hx. cbn beta iota.
    unfold bind at 1, now at 1. cbn beta iota. unfold bind at 1.
    rewrite (repeat_call_calls raises_at Hnr). cbn beta iota.
    unfold bind at 1, now at 1. cbn [reads calls].
    unfold bind.
    match goal with |- context [measure ?a ?b ?c ?d ?e ?g ?st] =>
      destruct (IH st) as [ts E]; rewrite E end. unfold ret; cbv beta iota.
    eexists. apply f_equal2; [reflexivity|].
    cbn [reads calls]. change (Z.to_nat 1) with 1%nat. cbn [repeat app].
    rewrite repeat_snoc. f_equal. lia.
Qed.

(** X11: when the input for the size can be built and the first
    calibration invocation already takes at least 5 time units, the batch
    size is 1: the size is measured with one calibration invocation and
    then exactly one invocation per iteration, all on that input. *)
Theorem slow_call_batch_one (now_at : nat -> Q) (raises_at : nat -> Input -> bool)
      (iterations : nat) (inputMode : InputMode) (k : Z) (x : Input) (s : St) :
  (forall k x, raises_at k x = false) -> (1 <= iterations)%nat ->
  input_for inputMode k = Ok x ->
  5 <= now_at (S (reads s)) - now_at (reads s) ->
  exists smp s', measure_size now_at raises_at iterations inputMode k s = (Ok smp, s') /\
    calls s' = repeat x (S iterations) ++ calls s.
Proof.
  intros Hnr Hit Hx Hslow.
  assert (Hf : exists f, cal_fuel = S (S f)).
  { pose proof cal_fuel_Z as Hz. destruct cal_fuel as [|[|f]]; [discriminate|discriminate|eauto]. }
  destruct Hf as [f Hf].
  assert (G1 : Qltb (now_at (reads s) - now_at (reads s)) 5 = true).
  { unfold Qltb. apply negb_true_iff, not_true_iff_false. intros H.
    apply Qle_bool_iff in H.
    assert (E0 : now_at (reads s) - now_at (reads s) == 0) by ring.
    rewrite E0 in H. apply (Qle_not_lt _ _ H). reflexivity. }
  assert (G2 : Qltb (now_at (S (reads s)) - now_at (reads s)) 5 = false).
  { unfold Qltb. apply negb_false_iff, Qle_bool_iff. exact Hslow. }
  assert (Hcal : cal_loop now_at raises_at cal_fuel x (now_at (reads s)) (now_at (reads s)) 0
                   {| reads := S (reads s); calls := calls s |} =
                 (Ok (now_at (S (reads s)), 1%Z),
                  {| reads := S (S (reads s)); calls := x :: calls s |})).
  { rewrite Hf. cbn [cal_loop]. rewrite G1. change (Z.ltb 0 1000000) with true. cbn [andb].
    unfold bind at 1, call_alg. rewrite Hnr. cbn [reads calls].
    unfold bind at 1, now. cbn [reads calls].
    replace (0 + 1)%Z with 1%Z by reflexivity.
    destruct f as [|f]; cbn [cal_loop].
    all: rewrite G2; reflexivity. }
  unfold measure_size, bind at 1, lift at 1. rewrite Hx. cbn beta iota.
  unfold bind at 1, now at 1. cbn beta iota. unfold bind at 1. rewrite Hcal. cbn beta iota. cbn [fst snd].
  change (batch_size 1 (now_at (S (reads s)) - now_at (reads s))) with 1%Z.
  destruct (measure_batch1_calls now_at raises_at Hnr inputMode k x Hx iterations
              {| reads := S (S (reads s)); calls := x :: calls s |}) as [ts E].
  unfold bind at 1. rewrite E.
  pose proof (measure_length _ _ _ _ _ _ _ _ _ E) as Hl.
  destruct ts as [|t ts]; [simpl in Hl; lia|].
  unfold bind, lift, ret. cbn [Qmean]. do 2 eexists. split; [reflexivity|].
  cbn [calls]. apply repeat_snoc.
Qed.

Lemma slow_call_batch_one_witness :
  (forall k x, never_raises k x = false) /\ (1 <= 3)%nat /\
  input_for ModeNumber 7 = Ok (InNumber 7) /\
  5 <= clock_step6 1 - clock_step6 0 /\
  exists smp s',
    measure_size clock_step6 never_raises 3 ModeNumber 7 {| reads := 0; calls := [] |}
      = (Ok smp, s') /\
    calls s' = repeat (InNumber 7) 4 ++ calls {| reads := 0; calls := [] |}.
Proof.
  split; [reflexivity|split; [lia|split; [reflexivity|split; [vm_compute; discriminate|]]]].
  apply (slow_call_batch_one clock_step6 never_raises 3 ModeNumber 7 (InNumber 7)
           {| reads := 0; calls := [] |}); [reflexivity|lia|reflexivity|vm_compute; discriminate].
Defined.


Open Scope R_scope.

Lemma determineComplexity_ok_facts (dataPoints : list DataPoint) :
  dataPoints <> [] ->
  exists r, determineComplexity dataPoints = Ok r /\ In (bestFit r) labels /\
    Permutation (map ftype (results r)) labels.
Proof.
  intros Hne.
  destruct (determineComplexity_best_in _ Hne) as (mt & r & Hm & Hr & b & Hb & Hbt).
  destruct (determineComplexity_cases _ Hne) as (mt' & m0 & rest & Hm' & Hs).
  rewrite Hm in Hm'. injection Hm' as <-.
  exists r. split; [exact Hr|split].
  - rewrite <- Hbt. simpl in Hb.
    destruct Hb as [<-|[<-|[<-|[<-|[<-|[]]]]]]; simpl; tauto.
  - destruct (results_facts _ _ _ _ Hs) as (_ & _ & Hp).
    rewrite (determineComplexity_unfold _ _ _ _ Hm Hs) in Hr. cbv zeta in Hr.
    destruct (Rlt_dec mt (1 / 10000)); injection Hr as <-; exact Hp.
Qed.

(** X10: with at least two sizes whose input can be built (any size in
    number mode, sizes up to [2^32 - 1] in array mode), [iterations >= 1]
    and an algorithm that never throws, [runSingleAnalysis] returns a classification whose
    best fit is one of the five labels and whose [results] carry each of
    the five labels once. *)
Theorem runSingleAnalysis_classifies (now_at : nat -> Q) (raises_at : nat -> Input -> bool)
      (inputSizes : list Z) (iterations : nat) (inputMode : InputMode) (s : St) :
  (forall k x, raises_at k x = false) -> (1 <= iterations)%nat ->
  (2 <= List.length inputSizes)%nat -> Forall (input_buildable inputMode) inputSizes ->
  exists r s', runSingleAnalysis now_at raises_at inputSizes iterations inputMode s = (Ok r, s') /\
    In (bestFit r) labels /\ Permutation (map ftype (results r)) labels.
Proof.
  intros Hnr Hit Hlen Hb. unfold runSingleAnalysis.
  destruct (Nat.ltb_spec (List.length inputSizes) 2) as [Hl|_]; [lia|].
  unfold runAnalysis, bind at 1 2.
  destruct (warmup_ok raises_at Hnr inputMode inputSizes Hb s) as [s1 E1]. rewrite E1.
  destruct (mapM_measure_ok now_at raises_at Hnr iterations inputMode Hit inputSizes s1 Hb)
    as (ys & s2 & E2). rewrite E2.
  assert (HF : Forall2 (fun k smp => s_n smp = k) inputSizes ys).
  { eapply mapM_forall2; [|exact E2]. intros x s0 y s0'. apply measure_size_n. }
  assert (Hne : map to_datapoint ys <> []).
  { destruct HF; [simpl in Hlen; lia|discriminate]. }
  destruct (determineComplexity_ok_facts _ Hne) as (r & Hr & Hin & Hp).
  exists r, s2. unfold lift. rewrite Hr. auto.
Qed.

Lemma runSingleAnalysis_classifies_witness :
  (forall k x, never_raises k x = false) /\ (1 <= 1)%nat /\
  (2 <= List.length [10%Z; 100%Z])%nat /\ Forall (input_buildable ModeArray) [10%Z; 100%Z] /\
  exists r s',
    runSingleAnalysis clock_step6 never_raises [10%Z; 100%Z] 1 ModeArray
      {| reads := 0; calls := [] |} = (Ok r, s') /\
    In (bestFit r) labels /\ Permutation (map ftype (results r)) labels.
Proof.
  assert (Hb : Forall (input_buildable ModeArray) [10%Z; 100%Z])
    by (repeat constructor; cbn; unfold max_array_length; lia).
  split; [reflexivity|split; [lia|split; [simpl; lia|split; [exact Hb|]]]].
  apply runSingleAnalysis_classifies; [reflexivity|lia|simpl; lia|exact Hb].
Defined.
